(** * Process status display: windowed metrics and the dispatch loop

    A shallow embedding of [execution.py] (the functions [_launch] and
    [dispatch]) together with the [Metrics] counters that the loop drives.

    Conventions.
    - Python numbers are exact rationals ([Qc]); rounding of floats is not
      part of the model.
    - Python dictionaries keyed by strings are [gmap string _]; dictionaries
      whose iteration order is observable are association lists.
    - A raised exception is the left summand of [Result]. *)

From stdpp Require Import base numbers gmap strings list fin_maps fin_sets pretty infinite.
From Stdlib Require Import QArith Qcanon.

Local Open Scope Qc_scope.

Set Warnings "-clear-no-such-hyp".

(** ** Exceptions and results *)

Inductive Exn : Type :=
| StopIteration
| KeyError
| IndexError
| ValueError
| ZeroDivisionError
| ProcessLookupError
| UnboundLocalError
| OSError.

Global Instance Exn_eq_dec : EqDecision Exn.
Proof. solve_decision. Defined.

Definition Result (A : Type) : Type := Exn + A.

Definition raise {A : Type} (e : Exn) : Result A := inl e.
Definition ret {A : Type} (a : A) : Result A := inr a.

(** Python's true division [a / b]. *)
Definition py_truediv (a b : Qc) : Result Qc :=
  if decide (b = 0) then raise ZeroDivisionError else ret (a / b).

(** ** Metrics *)

Module Metrics.

(** Modelled from the spec: the class [Metrics] of the terminal module is not
    among the sources (only its tests are). The record follows the data model:
    [current], [history], [snapshot], [duration], [window]; [occurrences]
    holds the accumulated [count] arguments of [update]. *)
Record t : Type := Make {
  window : Qc;
  duration : Qc;
  history : list (gmap string Qc * Qc);
  current : gmap string Qc;
  snapshot : gmap string Qc;
  occurrences : gmap string Qc
}.

(** [d.get(field, 0)] *)
Definition get0 (d : gmap string Qc) (field : string) : Qc :=
  default 0 (d !! field).

(** [d[field] += v] on a counter. *)
Definition add_to (field : string) (v : Qc) (d : gmap string Qc) : gmap string Qc :=
  <[field := get0 d field + v]> d.

(** Modelled from the spec: [Metrics(window=8)]; every container empty and
    [duration == 0]. *)
Definition init (w : Qc) : t :=
  Make w 0 [] ∅ ∅ ∅.

(** Modelled from the spec: [clear()] resets [duration], [history],
    [snapshot], [current], preserving [window]. *)
Definition clear (m : t) : t :=
  Make (window m) 0 [] ∅ ∅ (occurrences m).

(** Modelled from the spec: [update(field, value, count=1)] adds [value] to
    the pending delta of [field] and accumulates [count]. *)
Definition update (field : string) (value count : Qc) (m : t) : t :=
  Make (window m) (duration m) (history m)
       (add_to field value (current m)) (snapshot m)
       (add_to field count (occurrences m)).

(** Modelled from the spec: [changes()], the names with nonzero pending
    deltas since the last commit. *)
Definition changes (m : t) : gset string :=
  dom (filter (λ kv : string * Qc, kv.2 ≠ 0) (current m)).

(** [snapshot[field] += current[field]] for every pending field. *)
Definition fold_pending (snap cur : gmap string Qc) : gmap string Qc :=
  union_with (λ s c, Some (s + c)) snap cur.

(** Modelled from the spec: [commit(elapsed)]. *)
Definition commit (elapsed : Qc) (m : t) : t :=
  let snap := fold_pending (snapshot m) (current m) in
  Make (window m) (duration m + elapsed)
       (history m ++ [(snap, elapsed)]) ∅ snap (occurrences m).

(** The end-of-interval marker of every history entry: the last entry ends at
    [d], each earlier one ends where its successor's interval begins. *)
Fixpoint end_markers (d : Qc) (h : list (gmap string Qc * Qc))
  : list (Qc * (gmap string Qc * Qc)) :=
  match h with
  | [] => []
  | e :: rest =>
      (d - foldr (λ x acc, x.2 + acc) 0 rest, e) :: end_markers d rest
  end.

Definition marked (m : t) : list (Qc * (gmap string Qc * Qc)) :=
  end_markers (duration m) (history m).

(** The entries that [trim] keeps, with their markers. *)
Definition retained (w : Qc) (m : t) : list (Qc * (gmap string Qc * Qc)) :=
  filter (λ me : Qc * (gmap string Qc * Qc), duration m - w ≤ me.1) (marked m).

(** Modelled from the spec: [trim(window)] drops the history entries whose
    end marker lies strictly before the cutoff [duration - window]. *)
Definition trim (w : Qc) (m : t) : t :=
  Make (window m) (duration m) ((retained w m).*2)
       (current m) (snapshot m) (occurrences m).

(** [trim()] with the default argument. *)
Definition trim_default (m : t) : t := trim (window m) m.

(** Modelled from the spec: [total(field)]. *)
Definition total (m : t) (field : string) : Qc :=
  get0 (snapshot m) field + get0 (current m) field.

(** Modelled from the spec: [recent(field)]. *)
Definition recent (m : t) (field : string) : Qc :=
  get0 (snapshot m) field.

(** Modelled from the spec: [rate(field)] is [total(field) / duration]. *)
Definition rate (m : t) (field : string) : Result Qc :=
  py_truediv (total m field) (duration m).

(** Modelled from the spec: [delta(field_names)], the [recent] value of
    exactly the given fields. *)
Definition delta (m : t) (fields : gset string) : gmap string Qc :=
  set_to_map (λ f, (f, recent m f)) fields.

End Metrics.


(** ** Data of the dispatch loop *)

Definition Lane : Type := nat.
Definition Loc : Type := nat.
Definition IterRef : Type := nat.
Definition Pid : Type := nat.
Definition Fd : Type := nat.
Definition Ident : Type := string.
Definition Chan : Type := string.
Definition XQual : Type := string.

(** The parameters of a metrics report: [time], [fields], [units],
    [counts]. *)
Record Report : Type := MkReport {
  r_time : Qc;
  r_fields : list string;
  r_units : list Qc;
  r_counts : list Qc
}.

(** [msg.msg_parameters['data']]: a [Report] of the metrics protocol, or
    anything else. *)
Inductive Data : Type :=
| MetricsReport (r : Report)
| OtherData.

(** A status frame: the symbol of its event and its data parameter. *)
Record Message : Type := MkMessage {
  msg_symbol : string;
  msg_data : Data
}.

Global Instance Report_eq_dec : EqDecision Report.
Proof. solve_decision. Defined.

Global Instance Data_eq_dec : EqDecision Data.
Proof. solve_decision. Defined.

Global Instance Message_eq_dec : EqDecision Message.
Proof. solve_decision. Defined.

(** The launch descriptor [ki]: [ki.spawn(fdmap=...)] gives a process
    identifier or raises. *)
Record Invocation : Type := MkInvocation {
  spawn : list (Fd * Fd) → Result Pid
}.

(** What a plan yields: [(category, dimensions, xqual, xcontext, ki)]. *)
Record ProcessSpec : Type := MkSpec {
  ps_category : string;
  ps_dimensions : list string;
  ps_xqual : XQual;
  ps_xcontext : string;
  ps_ki : Invocation
}.

(** The per-lane [status] dictionary. A field is [None] while the key is
    absent; ['channel'] is present with the value [None] until a launch. *)
Record Status : Type := MkStatus {
  st_channel : option (option XQual);
  st_source : option Ident;
  st_process_queue : option IterRef;
  st_transactions : option (gmap Chan (list Message));
  st_pid : option Pid
}.

(** [status.clear()] *)
Definition status_cleared : Status := MkStatus None None None None None.

(** What the display operations are applied to. *)
Inductive Target : Type :=
| Monitor (lid : Lane)
| Summary.

(** The calls that leave the loop, in the order they are made. *)
Inductive Event : Type :=
| EPipe (rfd wfd : Fd)
| EClose (fd : Fd)
| ESpawn (fdmap : list (Fd * Fd)) (r : Result Pid)
| EReap (pid : Pid)
| EKillpg (pid : Pid) (delivered : bool)
| EIoaEnter
| EIoaExit
| EConnect (lid : Lane) (fd : Fd)
| ETitle (t : Target) (head : string) (rest : list string)
| EInstall (t : Target)
| EErase (t : Target)
| EUpdate (t : Target) (d : gmap string Qc)
| EFrame (t : Target)
| EFlush
| EFinish (source : Ident)
| EEox (lid : Lane) (stop start : Message) (messages : list Message)
       (channel : option XQual)
| EEop (lid : Lane) (channel : option XQual) (pid : Pid) (exit_status : Z).

Record State {QS : Type} : Type := MkState {
  heap : list Status;
  iters : list (list ProcessSpec);
  fds : gset Fd;
  statusd : list (Lane * Loc);
  status : option Loc;
  available : list Lane;
  monitors : list Metrics.t;
  mtotals : Metrics.t;
  queue : QS;
  last : Z;
  message_count : nat;
  clock_reads : nat;
  passes : nat;
  trace : list Event
}.
Global Arguments State : clear implicits.
Global Arguments MkState {QS}.

Definition upd_heap {QS : Type} (f : list Status → list Status) (st : State QS) : State QS :=
  MkState (f (heap st)) (iters st) (fds st) (statusd st) (status st) (available st) (monitors st) (mtotals st) (queue st) (last st) (message_count st) (clock_reads st) (passes st) (trace st).
Definition upd_iters {QS : Type} (f : list (list ProcessSpec) → list (list ProcessSpec)) (st : State QS) : State QS :=
  MkState (heap st) (f (iters st)) (fds st) (statusd st) (status st) (available st) (monitors st) (mtotals st) (queue st) (last st) (message_count st) (clock_reads st) (passes st) (trace st).
Definition upd_fds {QS : Type} (f : gset Fd → gset Fd) (st : State QS) : State QS :=
  MkState (heap st) (iters st) (f (fds st)) (statusd st) (status st) (available st) (monitors st) (mtotals st) (queue st) (last st) (message_count st) (clock_reads st) (passes st) (trace st).
Definition upd_statusd {QS : Type} (f : list (Lane * Loc) → list (Lane * Loc)) (st : State QS) : State QS :=
  MkState (heap st) (iters st) (fds st) (f (statusd st)) (status st) (available st) (monitors st) (mtotals st) (queue st) (last st) (message_count st) (clock_reads st) (passes st) (trace st).
Definition upd_status {QS : Type} (f : option Loc → option Loc) (st : State QS) : State QS :=
  MkState (heap st) (iters st) (fds st) (statusd st) (f (status st)) (available st) (monitors st) (mtotals st) (queue st) (last st) (message_count st) (clock_reads st) (passes st) (trace st).
Definition upd_available {QS : Type} (f : list Lane → list Lane) (st : State QS) : State QS :=
  MkState (heap st) (iters st) (fds st) (statusd st) (status st) (f (available st)) (monitors st) (mtotals st) (queue st) (last st) (message_count st) (clock_reads st) (passes st) (trace st).
Definition upd_monitors {QS : Type} (f : list Metrics.t → list Metrics.t) (st : State QS) : State QS :=
  MkState (heap st) (iters st) (fds st) (statusd st) (status st) (available st) (f (monitors st)) (mtotals st) (queue st) (last st) (message_count st) (clock_reads st) (passes st) (trace st).
Definition upd_mtotals {QS : Type} (f : Metrics.t → Metrics.t) (st : State QS) : State QS :=
  MkState (heap st) (iters st) (fds st) (statusd st) (status st) (available st) (monitors st) (f (mtotals st)) (queue st) (last st) (message_count st) (clock_reads st) (passes st) (trace st).
Definition upd_queue {QS : Type} (f : QS → QS) (st : State QS) : State QS :=
  MkState (heap st) (iters st) (fds st) (statusd st) (status st) (available st) (monitors st) (mtotals st) (f (queue st)) (last st) (message_count st) (clock_reads st) (passes st) (trace st).
Definition upd_last {QS : Type} (f : Z → Z) (st : State QS) : State QS :=
  MkState (heap st) (iters st) (fds st) (statusd st) (status st) (available st) (monitors st) (mtotals st) (queue st) (f (last st)) (message_count st) (clock_reads st) (passes st) (trace st).
Definition upd_message_count {QS : Type} (f : nat → nat) (st : State QS) : State QS :=
  MkState (heap st) (iters st) (fds st) (statusd st) (status st) (available st) (monitors st) (mtotals st) (queue st) (last st) (f (message_count st)) (clock_reads st) (passes st) (trace st).
Definition upd_clock_reads {QS : Type} (f : nat → nat) (st : State QS) : State QS :=
  MkState (heap st) (iters st) (fds st) (statusd st) (status st) (available st) (monitors st) (mtotals st) (queue st) (last st) (message_count st) (f (clock_reads st)) (passes st) (trace st).
Definition upd_passes {QS : Type} (f : nat → nat) (st : State QS) : State QS :=
  MkState (heap st) (iters st) (fds st) (statusd st) (status st) (available st) (monitors st) (mtotals st) (queue st) (last st) (message_count st) (clock_reads st) (f (passes st)) (trace st).
Definition upd_trace {QS : Type} (f : list Event → list Event) (st : State QS) : State QS :=
  MkState (heap st) (iters st) (fds st) (statusd st) (status st) (available st) (monitors st) (mtotals st) (queue st) (last st) (message_count st) (clock_reads st) (passes st) (f (trace st)).

(** ** Python dictionaries that keep insertion order *)

Fixpoint dict_get {V : Type} (k : nat) (d : list (nat * V)) : option V :=
  match d with
  | [] => None
  | (k', v) :: r => if decide (k' = k) then Some v else dict_get k r
  end.

Fixpoint dict_set {V : Type} (k : nat) (v : V) (d : list (nat * V)) : list (nat * V) :=
  match d with
  | [] => [(k, v)]
  | (k', v') :: r =>
      if decide (k' = k) then (k, v) :: r else (k', v') :: dict_set k v r
  end.

Fixpoint dict_del {V : Type} (k : nat) (d : list (nat * V)) : list (nat * V) :=
  match d with
  | [] => []
  | (k', v') :: r => if decide (k' = k) then r else (k', v') :: dict_del k r
  end.

(** ** The monad of the loop: a state and a possible exception *)

Definition M (QS A : Type) : Type := State QS → Result A * State QS.

Definition mret {QS A : Type} (a : A) : M QS A := λ st, (ret a, st).

Definition mraise {QS A : Type} (e : Exn) : M QS A := λ st, (raise e, st).

Global Instance M_bind {QS : Type} : MBind (M QS) := λ A B k c st,
  match c st with
  | (inr a, st') => k a st'
  | (inl e, st') => (inl e, st')
  end.

Definition gets {QS A : Type} (f : State QS → A) : M QS A := λ st, (ret (f st), st).

Definition modify {QS : Type} (f : State QS → State QS) : M QS unit :=
  λ st, (ret tt, f st).

(** [try: c except e: h] for the exceptions that [catches] selects. *)
Definition try_except {QS A : Type} (c : M QS A) (catches : Exn → bool)
    (h : Exn → M QS A) : M QS A :=
  λ st, match c st with
        | (inl e, st') => if catches e then h e st' else (inl e, st')
        | r => r
        end.

(** A lookup that raises [e] when nothing is found. *)
Definition lookup_or {QS A : Type} (e : Exn) (o : option A) : M QS A :=
  match o with
  | Some a => mret a
  | None => mraise e
  end.

Definition emit {QS : Type} (ev : Event) : M QS unit :=
  modify (upd_trace (λ t, t ++ [ev])).

(** [for x in l: body x] *)
Fixpoint for_each {QS A : Type} (l : list A) (body : A → M QS unit) : M QS unit :=
  match l with
  | [] => mret tt
  | x :: r => body x;; for_each r body
  end.

(** ** The collaborators of the loop

    The queue, the plan, the frame array, the clock and the process
    primitives live outside [execution.py]; the loop is stated over any
    behaviour of theirs. *)
Record Env (QS : Type) : Type := MkEnv {
  (** [plan(ident)]: the process specs of a work item. *)
  plan : Ident → list ProcessSpec;
  (** [queue.take(n)], [queue.finish(ident)], [queue.terminal()],
      [queue.status()] on a queue in state [QS]. *)
  queue_take : nat → QS → list Ident * QS;
  queue_finish : Ident → QS → QS;
  queue_terminal : QS → bool;
  queue_status : QS → list Z;
  (** What the n-th pass over [ioa] yields: [(lid, sframes)] pairs, with
      [None] for a closed source. *)
  ioa_poll : nat → list (Lane * option (list (Chan * Message)));
  (** The n-th reading of [time()], and the [decrease] and
      [select('millisecond')] methods of a reading. *)
  clock : nat → Z;
  decrease : Z → Z → Z;
  select_millisecond : Z → Z;
  (** [execution.reap(pid, options=0)] *)
  reap : Pid → Z;
  (** [os.killpg(pid, SIGKILL)]: [false] when it raises
      [ProcessLookupError]. *)
  killpg : Pid → bool
}.
Global Arguments plan {QS}.
Global Arguments queue_take {QS}.
Global Arguments queue_finish {QS}.
Global Arguments queue_terminal {QS}.
Global Arguments queue_status {QS}.
Global Arguments ioa_poll {QS}.
Global Arguments clock {QS}.
Global Arguments decrease {QS}.
Global Arguments select_millisecond {QS}.
Global Arguments reap {QS}.
Global Arguments killpg {QS}.

(** [start, *messages, stop = l]; [None] stands for the [ValueError] of a
    list with fewer than two items. *)
Fixpoint split_last {A : Type} (l : list A) : option (list A * A) :=
  match l with
  | [] => None
  | x :: r =>
      match split_last r with
      | None => Some ([], x)
      | Some (i, z) => Some (x :: i, z)
      end
  end.

Definition unpack_star {A : Type} (l : list A) : option (A * list A * A) :=
  match l with
  | [] => None
  | start :: r =>
      match split_last r with
      | None => None
      | Some (messages, stop) => Some (start, messages, stop)
      end
  end.

(** [zip(fnames, funits, fcounts)] *)
Fixpoint zip3 {A B C : Type} (a : list A) (b : list B) (c : list C) : list (A * B * C) :=
  match a, b, c with
  | x :: a', y :: b', z :: c' => (x, y, z) :: zip3 a' b' c'
  | _, _, _ => []
  end.

(** ['/'.join(map(str, queue.status()))] *)
Definition join_status (l : list Z) : string :=
  String.concat "/" (pretty <$> l).

(** A method that changes [monitors[lid].metrics] in place. *)
Definition on_lane (lid : Lane) (f : Metrics.t → Metrics.t) (ms : list Metrics.t)
  : list Metrics.t :=
  match ms !! lid with
  | Some m => <[lid := f m]> ms
  | None => ms
  end.

Section Primitives.
Context {QS : Type}.

Definition read_status (loc : Loc) : M QS Status :=
  st ← gets heap; lookup_or KeyError (st !! loc).

Definition write_status (loc : Loc) (f : Status → Status) : M QS unit :=
  modify (upd_heap (λ h, match h !! loc with
                         | Some s => <[loc := f s]> h
                         | None => h
                         end)).

(** A new dictionary object. *)
Definition new_status (s : Status) : M QS Loc :=
  h ← gets heap; modify (upd_heap (λ h, h ++ [s]));; mret (length h).

(** [status[key]], raising [KeyError] for an absent key. *)
Definition status_key {A : Type} (key : Status → option A) (loc : Loc) : M QS A :=
  s ← read_status loc; lookup_or KeyError (key s).

(** [iter(l)] *)
Definition new_iter (l : list ProcessSpec) : M QS IterRef :=
  its ← gets iters; modify (upd_iters (λ i, i ++ [l]));; mret (length its).

(** [next(it)] *)
Definition py_next (it : IterRef) : M QS ProcessSpec :=
  its ← gets iters;
  match its !! it with
  | Some (x :: r) => modify (upd_iters (<[it := r]>));; mret x
  | _ => mraise StopIteration
  end.

(** [os.pipe()] *)
Definition os_pipe : M QS (Fd * Fd) :=
  open ← gets fds;
  let rfd := fresh open in
  let wfd := fresh ({[rfd]} ∪ open) in
  modify (upd_fds (λ s, {[rfd; wfd]} ∪ s));;
  emit (EPipe rfd wfd);;
  mret (rfd, wfd).

(** [os.close(fd)] *)
Definition os_close (fd : Fd) : M QS unit :=
  open ← gets fds;
  if decide (fd ∈ open)
  then modify (upd_fds (λ s, s ∖ {[fd]}));; emit (EClose fd)
  else mraise OSError.

(** [ki.spawn(fdmap=fdmap)] *)
Definition ki_spawn (ki : Invocation) (fdmap : list (Fd * Fd)) : M QS Pid :=
  emit (ESpawn fdmap (spawn ki fdmap));;
  match spawn ki fdmap with
  | inr pid => mret pid
  | inl e => mraise e
  end.

(** [available.popleft()] *)
Definition popleft : M QS Lane :=
  av ← gets available;
  match av with
  | [] => mraise IndexError
  | lid :: r => modify (upd_available (λ _, r));; mret lid
  end.

(** [monitors[lid].metrics] *)
Definition monitor_metrics (lid : Lane) : M QS Metrics.t :=
  ms ← gets monitors; lookup_or IndexError (ms !! lid).

Definition upd_monitor (lid : Lane) (f : Metrics.t → Metrics.t) : M QS unit :=
  modify (upd_monitors (on_lane lid f)).

Definition set_channel (x : option XQual) (s : Status) : Status :=
  MkStatus (Some x) (st_source s) (st_process_queue s) (st_transactions s) (st_pid s).

Definition set_pid (pid : Pid) (s : Status) : Status :=
  MkStatus (st_channel s) (st_source s) (st_process_queue s) (st_transactions s) (Some pid).

Definition set_transactions (x : gmap Chan (list Message)) (s : Status) : Status :=
  MkStatus (st_channel s) (st_source s) (st_process_queue s) (Some x) (st_pid s).

(** [_launch(status)]: take the next process spec of the status' plan and
    spawn it on a new pipe; [None] when the plan is exhausted. *)
Definition _launch (loc : Loc) : M QS (option (Fd * string * list string)) :=
  r ← try_except
        (it ← status_key st_process_queue loc;
         spec ← py_next it;
         write_status loc (set_channel (Some (ps_xqual spec)));;
         mret (Some spec))
        (λ e, bool_decide (e = StopIteration))
        (λ _, mret None);
  match r with
  | None => mret None
  | Some spec =>
      '(rfd, wfd) ← os_pipe;
      try_except
        (pid ← ki_spawn (ps_ki spec) [(0, 0); (wfd, 1); (2, 2)]%nat;
         write_status loc (set_pid pid);;
         os_close wfd)
        (λ _, true)
        (λ e, os_close rfd;; os_close wfd;; mraise e);;
      mret (Some (rfd, ps_category spec, ps_dimensions spec))
  end.

End Primitives.

(** ** The dispatch loop *)

(** The [stctl.update(m, m.delta(deltas))] calls of one tick, for the monitors
    [ms] of the lanes from [i] on; [step] is what the tick does to a
    [Metrics]. *)
Fixpoint tick_updates (i : nat) (step : Metrics.t → Metrics.t) (ms : list Metrics.t)
  : list Event :=
  match ms with
  | [] => []
  | m :: r =>
      EUpdate (Monitor i) (Metrics.delta (step m) (Metrics.changes m))
      :: tick_updates (S i) step r
  end.

Section Dispatch.
Context {QS : Type}.
Variable env : Env QS.
Variable title : string.
Variable window : Qc.

(** [queue.finish(ident)] *)
Definition finish (ident : Ident) : M QS unit :=
  modify (upd_queue (queue_finish env ident));; emit (EFinish ident).

(** [summary.title(title, '/'.join(map(str, queue.status())))] *)
Definition summary_title : M QS unit :=
  qs ← gets queue;
  emit (ETitle Summary title [join_status (queue_status env qs)]).

(** [metrics.update(n, v, c); mtotals.update(n, v, c)] *)
Definition update_both (lid : Lane) (n : string) (v c : Qc) : M QS unit :=
  upd_monitor lid (Metrics.update n v c);;
  modify (upd_mtotals (Metrics.update n v c)).

(** The body of [for ident in queue.take(len(available))]. *)
Definition take_in (ident : Ident) : M QS unit :=
  lid ← popleft;
  kii ← new_iter (plan env ident);
  loc ← new_status (MkStatus (Some None) (Some ident) (Some kii) (Some ∅) None);
  modify (upd_status (λ _, Some loc));;
  modify (upd_statusd (dict_set lid loc));;
  monitor_metrics lid;;
  upd_monitor lid Metrics.clear;;
  next_channel ← _launch loc;
  match next_channel with
  | None =>
      source ← status_key st_source loc;
      finish source;;
      emit (EErase (Monitor lid));;
      modify (upd_available (λ a, a ++ [lid]))
  | Some (rfd, category, dimensions) =>
      emit (ETitle (Monitor lid) category dimensions);;
      emit (EConnect lid rfd);;
      emit (EInstall (Monitor lid))
  end.

(** [while available: ... else: break] for one source lane. The result is
    [true] when the [else] branch ran (the enclosing [for] is left). Every
    turn that does not leave pops one lane, so [n], the number of available
    lanes at entry, bounds the turns. *)
Fixpoint backfill_lane (n : nat) (lid : Lane) : M QS bool :=
  av ← gets available;
  match av, n with
  | [], _ => mret true
  | _ :: _, O => mret true
  | _ :: _, S n' =>
      sd ← gets statusd;
      loc0 ← lookup_or KeyError (dict_get lid sd);
      s ← read_status loc0;
      loc ← new_status s;
      modify (upd_status (λ _, Some loc));;
      next_channel ← _launch loc;
      match next_channel with
      | None => mret false
      | Some (rfd, category, dimensions) =>
          xlid ← popleft;
          write_status loc (set_transactions ∅);;
          modify (upd_statusd (dict_set xlid loc));;
          monitor_metrics xlid;;
          emit (ETitle (Monitor xlid) category dimensions);;
          emit (EConnect xlid rfd);;
          emit (EInstall (Monitor xlid));;
          backfill_lane n' lid
      end
  end.

(** [for lid in sources: ...] *)
Fixpoint backfill (sources : list Lane) : M QS unit :=
  match sources with
  | [] => mret tt
  | lid :: rest =>
      av ← gets available;
      left_for ← backfill_lane (length av) lid;
      if left_for : bool then mret tt else backfill rest
  end.

(** The body of [if available:]. The result is [false] for
    [processing = False; continue]. *)
Definition admission : M QS bool :=
  av ← gets available;
  qs ← gets queue;
  let '(idents, qs') := queue_take env (length av) qs in
  modify (upd_queue (λ _, qs'));;
  for_each idents take_in;;
  emit EFlush;;
  qs ← gets queue;
  if queue_terminal env qs then
    sd ← gets statusd;
    match sd with
    | [] => mret false
    | _ :: _ =>
        av ← gets available;
        match av with
        | [] => mret true
        | _ :: _ => backfill sd.*1;; mret true
        end
    end
  else mret true.

(** The metrics part of one frame. *)
Definition ingest (lid : Lane) (data : Data) : M QS unit :=
  match data with
  | MetricsReport r =>
      update_both lid "duration" (r_time r) 1;;
      for_each (zip3 (r_fields r) (r_units r) (r_counts r))
               (λ '(n, u, c), update_both lid n u c)
  | OtherData => mret tt
  end.

(** The body of [for channel, msg in sframes]. *)
Definition handle_frame (lid : Lane) (loc : Loc) (frame : Chan * Message) : M QS unit :=
  let '(channel, msg) := frame in
  let evtype := msg_symbol msg in
  xacts ← status_key st_transactions loc;
  write_status loc
    (set_transactions (<[channel := default [] (xacts !! channel) ++ [msg]]> xacts));;
  ingest lid (msg_data msg);;
  if decide (evtype = "transaction-stopped") then
    update_both lid "executing" (-1) 0;;
    xacts ← status_key st_transactions loc;
    buffer ← lookup_or KeyError (xacts !! channel);
    write_status loc (set_transactions (delete channel xacts));;
    match unpack_star buffer with
    | None => mret tt
    | Some (start, messages, stop) =>
        xqual ← status_key st_channel loc;
        emit (EEox lid stop start messages xqual)
    end
  else if decide (evtype = "transaction-started") then
    update_both lid "executing" 1 0
  else mret tt.

(** The body of [for lid, sframes in ioa]. *)
Definition handle_lane (item : Lane * option (list (Chan * Message))) : M QS unit :=
  let '(lid, sframes) := item in
  sd ← gets statusd;
  loc ← lookup_or KeyError (dict_get lid sd);
  modify (upd_status (λ _, Some loc));;
  status_key st_transactions loc;;
  status_key st_source loc;;
  monitor_metrics lid;;
  match sframes with
  | None =>
      pid ← status_key st_pid loc;
      emit (EReap pid);;
      xqual ← status_key st_channel loc;
      emit (EEop lid xqual pid (reap env pid));;
      next_channel ← _launch loc;
      upd_monitor lid Metrics.clear;;
      match next_channel with
      | Some (rfd, category, dimensions) =>
          emit (EConnect lid rfd);;
          emit (ETitle (Monitor lid) category dimensions);;
          emit (EInstall (Monitor lid))
      | None =>
          source ← status_key st_source loc;
          finish source;;
          sd ← gets statusd;
          lookup_or KeyError (dict_get lid sd);;
          modify (upd_statusd (dict_del lid));;
          modify (upd_available (λ a, a ++ [lid]));;
          summary_title;;
          emit (EInstall Summary);;
          write_status loc (λ _, status_cleared)
      end
  | Some frames =>
      modify (upd_message_count (λ c, (c + length frames)%nat));;
      for_each frames (handle_frame lid loc)
  end.

(** [(next_time.decrease(last).select('millisecond') or 1) / 1000] *)
Definition elapsed_of (next_time last : Z) : Qc :=
  let ms := select_millisecond env (decrease env next_time last) in
  Qc_of_Z (if decide (ms = 0%Z) then 1%Z else ms) / Qc_of_Z 1000.

(** The body of [for m in monitors]. *)
Definition tick_monitor (elapsed : Qc) (lid : Lane) : M QS unit :=
  mm ← monitor_metrics lid;
  let deltas := Metrics.changes mm in
  upd_monitor lid (Metrics.commit elapsed);;
  upd_monitor lid (Metrics.trim window);;
  mm ← monitor_metrics lid;
  emit (EUpdate (Monitor lid) (Metrics.delta mm deltas)).

(** The metrics tick at the end of a turn of the loop. *)
Definition tick : M QS unit :=
  n ← gets clock_reads;
  modify (upd_clock_reads S);;
  let next_time := clock env n in
  last ← gets last;
  let elapsed := elapsed_of next_time last in
  modify (upd_last (λ _, next_time));;
  ms ← gets monitors;
  for_each (seq 0 (length ms)) (tick_monitor elapsed);;
  mt ← gets mtotals;
  let tdeltas := Metrics.changes mt in
  modify (upd_mtotals (Metrics.commit elapsed));;
  modify (upd_mtotals (Metrics.trim window));;
  summary_title;;
  emit (EFrame Summary);;
  mt ← gets mtotals;
  emit (EUpdate Summary (Metrics.delta mt tdeltas));;
  emit EFlush.

(** The state after a tick. *)
Definition after_tick (st : State QS) : State QS :=
  let next_time := clock env (clock_reads st) in
  let elapsed := elapsed_of next_time (last st) in
  let step := λ m, Metrics.trim window (Metrics.commit elapsed m) in
  MkState (heap st) (iters st) (fds st) (statusd st) (status st) (available st)
    (step <$> monitors st) (step (mtotals st)) (queue st) next_time
    (message_count st) (S (clock_reads st)) (passes st)
    (trace st
     ++ tick_updates 0 step (monitors st)
     ++ [ETitle Summary title [join_status (queue_status env (queue st))];
         EFrame Summary;
         EUpdate Summary (Metrics.delta (step (mtotals st))
                                        (Metrics.changes (mtotals st)));
         EFlush]).

(** One turn of [while processing]; the result is the new [processing]. *)
Definition turn : M QS bool :=
  av ← gets available;
  go ← match av with
       | [] => mret true
       | _ :: _ => admission
       end;
  if go : bool then
    n ← gets passes;
    modify (upd_passes S);;
    for_each (ioa_poll env n) handle_lane;;
    tick;;
    mret true
  else mret false.

(** How the [try] block is left; [Running] when the turns run out. *)
Inductive Outcome : Type :=
| Returned
| Raised (e : Exn)
| Running.

Fixpoint loop (turns : nat) (st : State QS) : Outcome * State QS :=
  match turns with
  | O => (Running, st)
  | S n =>
      match turn st with
      | (inl e, st') => (Raised e, st')
      | (inr true, st') => loop n st'
      | (inr false, st') => (Returned, st')
      end
  end.

(** The body of [for lid in statusd] in the [finally] block. *)
Definition kill_lane (lid : Lane) : M QS unit :=
  killed ← try_except
             (sd ← gets statusd;
              loc ← lookup_or KeyError (dict_get lid sd);
              pid ← status_key st_pid loc;
              emit (EKillpg pid (killpg env pid));;
              if killpg env pid then mret true else mraise ProcessLookupError)
             (λ e, bool_decide (e = KeyError ∨ e = ProcessLookupError))
             (λ _, mret false);
  if killed : bool then
    cur ← gets status;
    loc ← lookup_or UnboundLocalError cur;
    pid ← status_key st_pid loc;
    emit (EReap pid)
  else mret tt.

(** The [finally] block. *)
Definition cleanup : M QS unit :=
  emit EIoaExit;;
  sd ← gets statusd;
  for_each sd.*1 kill_lane.

(** The state in which the [try] block is entered. *)
Definition start (mons : list Metrics.t) (summary : Metrics.t) (q0 : QS) : State QS :=
  MkState [] [] {[0; 1; 2]}%nat [] None (seq 0 (length mons))
          mons (Metrics.clear summary) q0 (clock env 0) 0 1 0
          [ETitle Summary title ["*"]; EIoaEnter].

(** [dispatch(traps, plan, control, monitors, summary, title, queue,
    window)], run for at most [turns] turns of the loop. *)
Definition dispatch (turns : nat) (mons : list Metrics.t) (summary : Metrics.t)
    (q0 : QS) : Outcome * State QS :=
  match loop turns (start mons summary q0) with
  | (Running, st) => (Running, st)
  | (out, st) =>
      match cleanup st with
      | (inl e, st') => (Raised e, st')
      | (inr _, st') => (out, st')
      end
  end.

End Dispatch.

(** ** Sequences of calls on a [Metrics] entity *)

Inductive Call : Type :=
| Update (field : string) (value count : Qc)
| Commit (elapsed : Qc).

Definition call (c : Call) (m : Metrics.t) : Metrics.t :=
  match c with
  | Update f v n => Metrics.update f v n m
  | Commit e => Metrics.commit e m
  end.

Definition run (cs : list Call) (m : Metrics.t) : Metrics.t :=
  foldl (λ m c, call c m) m cs.

(** The sum of the values given to [update] for [field] after the last
    [commit] of [cs], on top of [acc]. *)
Fixpoint pending (field : string) (cs : list Call) (acc : Qc) : Qc :=
  match cs with
  | [] => acc
  | Update f v _ :: r => pending field r (if decide (f = field) then acc + v else acc)
  | Commit _ :: r => pending field r 0
  end.

Definition is_commit (c : Call) : bool :=
  match c with
  | Commit _ => true
  | Update _ _ _ => false
  end.

(** The metrics part of one frame, on one entity. *)
Definition ingest_metrics (data : Data) (m : Metrics.t) : Metrics.t :=
  match data with
  | MetricsReport r =>
      foldl (λ m '(n, u, c), Metrics.update n u c m)
            (Metrics.update "duration" (r_time r) 1 m)
            (zip3 (r_fields r) (r_units r) (r_counts r))
  | OtherData => m
  end.

(** The time covered by a history. *)
Definition elapsed_sum (h : list (gmap string Qc * Qc)) : Qc :=
  foldr (λ x acc, x.2 + acc) 0 h.

(** ** States and commands used in the statements *)

Section Statements.
Context {QS : Type}.

(** The state after the buffer of a [transaction-stopped] frame was
    popped. *)
Definition after_stop (lid : Lane) (loc : Loc) (channel : Chan) (msg : Message)
    (s : Status) (tx : gmap Chan (list Message)) (st : State QS) : State QS :=
  upd_heap (λ h, <[loc := set_transactions (delete channel tx) s]> h)
    (upd_mtotals (λ m, Metrics.update "executing" (-1) 0
                         (ingest_metrics (msg_data msg) m))
       (upd_monitors
          (on_lane lid (λ m, Metrics.update "executing" (-1) 0
                               (ingest_metrics (msg_data msg) m)))
          st)).

(** A command that only adds calls to the trace. *)
Definition grows {A : Type} (c : M QS A) : Prop :=
  ∀ st, ∃ tr, trace (c st).2 = trace st ++ tr.

End Statements.

(** ** Scenarios *)

Module Scenario.

(** A process spec whose spawn gives [pid]. *)
Definition ok_spec (pid : Pid) : ProcessSpec :=
  MkSpec "category" ["dimension"] "xqual" "xcontext" (MkInvocation (λ _, ret pid)).

(** A process spec whose spawn raises. *)
Definition bad_spec : ProcessSpec :=
  MkSpec "category" ["dimension"] "xqual" "xcontext" (MkInvocation (λ _, raise OSError)).

(** Collaborators with a queue that hands out a list of work items and is
    terminal when the list is empty, a clock that advances by five
    milliseconds per reading and process groups that are all alive. *)
Definition list_env (pl : Ident → list ProcessSpec)
    (poll : nat → list (Lane * option (list (Chan * Message)))) : Env (list Ident) :=
  MkEnv (list Ident) pl
    (λ n l, (take n l, drop n l))
    (λ _ l, l)
    (λ l, bool_decide (l = []))
    (λ l, [Z.of_nat (length l)])
    poll
    (λ n, (Z.of_nat n * 5000000)%Z)
    Z.sub
    (λ ns, (ns / 1000000)%Z)
    (λ _, 0%Z)
    (λ _, true).

Definition m8 : Metrics.t := Metrics.init (Qc_of_Z 8).

Definition started : Message := MkMessage "transaction-started" OtherData.
Definition stopped : Message := MkMessage "transaction-stopped" OtherData.

(** One lane, one work item, an empty plan. *)
Definition empty_plan_env : Env (list Ident) := list_env (λ _, []) (λ _, []).

Definition empty_plan_run (turns : nat) : Outcome * State (list Ident) :=
  dispatch empty_plan_env "jobs" (Qc_of_Z 8) turns [m8] m8 ["a"].

(** Three lanes, three work items; the spawn of the third raises. *)
Definition failing_plan (ident : Ident) : list ProcessSpec :=
  if decide (ident = "a") then [ok_spec 100%nat]
  else if decide (ident = "b") then [ok_spec 101%nat]
  else [bad_spec].

Definition failing_env : Env (list Ident) := list_env failing_plan (λ _, []).

Definition failing_run : Outcome * State (list Ident) :=
  dispatch failing_env "jobs" (Qc_of_Z 8) 1%nat [m8; m8; m8] m8 ["a"; "b"; "c"].

(** One lane and one process: a transaction on channel [c], a lone stop on
    channel [d], then the end of the output. *)
Definition one_job_poll (n : nat) : list (Lane * option (list (Chan * Message))) :=
  match n with
  | 0%nat => [(0%nat, Some [("c", started); ("c", stopped); ("d", stopped)])]
  | 1%nat => [(0%nat, None)]
  | _ => []
  end.

Definition one_job_env : Env (list Ident) := list_env (λ _, [ok_spec 100%nat]) one_job_poll.

Definition one_job_run : Outcome * State (list Ident) :=
  dispatch one_job_env "jobs" (Qc_of_Z 8) 5%nat [m8] m8 ["a"].

(** A lane whose plan has one process spec left, the spawn of which
    raises. *)
Definition launch_state : State (list Ident) :=
  MkState [MkStatus (Some None) (Some "c") (Some 0%nat) (Some ∅) None]
          [[bad_spec]] {[0; 1; 2]}%nat [(0, 0)]%nat (Some 0%nat) []
          [m8] m8 [] 0%Z 0 1 0 [].

(** A lane running process 100 with the transaction buffers [tx]. *)
Definition frame_state (tx : gmap Chan (list Message)) : State (list Ident) :=
  MkState [MkStatus (Some (Some "xqual")) (Some "a") (Some 0%nat) (Some tx)
                    (Some 100%nat)]
          [[]] {[0; 1; 2; 3]}%nat [(0, 0)]%nat (Some 0%nat) []
          [m8] m8 [] 0%Z 0 1 1 [].

(** Channel [c] has seen the start of a transaction. *)
Definition open_tx : gmap Chan (list Message) := {["c" := [started]]}.

(** The status of a lane that runs process 100 for the work item [a]. *)
Definition running (tx : gmap Chan (list Message)) : Status :=
  MkStatus (Some (Some "xqual")) (Some "a") (Some 0%nat) (Some tx) (Some 100%nat).

(** Two lanes: lane 0 holds the status [s], whose plan iterator is the first
    of [plans]; the lanes [av] are available. *)
Definition lane_state (s : Status) (plans : list (list ProcessSpec))
    (av : list Lane) : State (list Ident) :=
  MkState [s] plans {[0; 1; 2; 3]}%nat [(0, 0)]%nat (Some 0%nat) av
          [m8; m8] m8 [] 0%Z 0 1 1 [].

(** A frame with a metrics report. *)
Definition report_msg : Message :=
  MkMessage "message"
            (MetricsReport (MkReport 1 ["k"; "unpaired"] [Qc_of_Z 3] [1])).

(** The collaborators of [one_job_env], with all process groups gone. *)
Definition gone_env : Env (list Ident) :=
  MkEnv (list Ident) (plan one_job_env) (queue_take one_job_env)
        (queue_finish one_job_env) (queue_terminal one_job_env)
        (queue_status one_job_env) (λ _, []) (clock one_job_env)
        (decrease one_job_env) (select_millisecond one_job_env)
        (reap one_job_env) (λ _, false).

End Scenario.

(** The process groups that were sent a kill signal. *)
Fixpoint killed (tr : list Event) : list Pid :=
  match tr with
  | [] => []
  | EKillpg pid _ :: r => pid :: killed r
  | _ :: r => killed r
  end.

(** How often the frame array was released. *)
Fixpoint released (tr : list Event) : nat :=
  match tr with
  | [] => 0
  | EIoaExit :: r => S (released r)
  | _ :: r => released r
  end.

(** The processes that were spawned. *)
Fixpoint spawned (tr : list Event) : list Pid :=
  match tr with
  | [] => []
  | ESpawn _ (inr pid) :: r => pid :: spawned r
  | _ :: r => spawned r
  end.

(** The lanes that were connected to a source. *)
Fixpoint connected (tr : list Event) : list Lane :=
  match tr with
  | [] => []
  | EConnect lid _ :: r => lid :: connected r
  | _ :: r => connected r
  end.

(** The work items reported as finished. *)
Fixpoint finished (tr : list Event) : list Ident :=
  match tr with
  | [] => []
  | EFinish ident :: r => ident :: finished r
  | _ :: r => finished r
  end.

(** The calls of the end-of-transaction trap. *)
Fixpoint eox_calls (tr : list Event)
  : list (Lane * Message * Message * list Message * option XQual) :=
  match tr with
  | [] => []
  | EEox lid stop start messages xq :: r =>
      (lid, stop, start, messages, xq) :: eox_calls r
  | _ :: r => eox_calls r
  end.

(** [m.update('k', 10); m.commit(2)], [n] times, on [Metrics(window=4)]. *)
Fixpoint commits (n : nat) : Metrics.t :=
  match n with
  | O => Metrics.init (Qc_of_Z 4)
  | S n' => Metrics.commit (Qc_of_Z 2) (Metrics.update "k" (Qc_of_Z 10) 1 (commits n'))
  end.

(** The states that the loop keeps to after the work item with the empty
    plan was taken in: the queue is terminal, lane 0 is available and yet
    [statusd] holds a status for it, whose plan is exhausted. *)
Definition stuck (st : State (list Ident)) : Prop :=
  available st = [0%nat]
  ∧ statusd st = [(0%nat, 0%nat)]
  ∧ queue st = []
  ∧ (heap st !! (0%nat : Loc)) ≫= st_process_queue = Some 0%nat
  ∧ iters st !! (0%nat : IterRef) = Some []
  ∧ length (monitors st) = 1%nat.

(** ** What frames do to the metrics *)

(** What one frame does to a [Metrics]: the report, then the gauge. *)
Definition frame_metrics (msg : Message) (m : Metrics.t) : Metrics.t :=
  let m1 := ingest_metrics (msg_data msg) m in
  if decide (msg_symbol msg = "transaction-stopped")
  then Metrics.update "executing" (-1) 0 m1
  else if decide (msg_symbol msg = "transaction-started")
       then Metrics.update "executing" 1 0 m1
       else m1.

(** The values that a report adds to [field]. *)
Definition report_delta (data : Data) (field : string) : Qc :=
  match data with
  | MetricsReport r =>
      (if decide ("duration" = field) then r_time r else 0)
      + foldr (λ '(n, u, _) acc, (if decide (n = field) then u else 0) + acc) 0
              (zip3 (r_fields r) (r_units r) (r_counts r))
  | OtherData => 0
  end.

(** What the symbol of a frame adds to [field]. *)
Definition gauge_delta (symbol field : string) : Qc :=
  if decide ("executing" = field)
  then if decide (symbol = "transaction-stopped") then -1
       else if decide (symbol = "transaction-started") then 1 else 0
  else 0.

(** ** The [finally] block, lane by lane *)

(** The processes that were reaped. *)
Fixpoint reaped (tr : list Event) : list Pid :=
  match tr with
  | [] => []
  | EReap pid :: r => pid :: reaped r
  | _ :: r => reaped r
  end.

(** [statusd[lid]['pid']], when both keys are there. *)
Definition lane_pid {QS : Type} (st : State QS) (lid : Lane) : option Pid :=
  dict_get lid (statusd st) ≫= λ loc, heap st !! loc ≫= st_pid.

(** What the [finally] block does for a lane with the pid [o], when
    [status['pid']] is [pc]. *)
Definition kill_events {QS : Type} (env : Env QS) (pc : Pid) (o : option Pid)
  : list Event :=
  match o with
  | None => []
  | Some pid =>
      EKillpg pid (killpg env pid) :: if killpg env pid then [EReap pc] else []
  end.

(** ** Arithmetic on [Qc] *)

Lemma Qc_add_sub_cancel (a b : Qc) : a + b - b = a.
Proof. ring. Qed.


Lemma Qc_add_nonneg (a b : Qc) : 0 ≤ a → 0 ≤ b → 0 ≤ a + b.
Proof.
  intros Ha Hb. replace 0 with (0 + 0) by ring. by apply Qcplus_le_compat.
Qed.


(** ** Lemmas on [Metrics] *)

Module MetricsFacts.
Import Metrics.

Lemma get0_empty f : get0 ∅ f = 0.
Proof. unfold get0. by rewrite lookup_empty. Qed.

Lemma get0_add_to f g v d :
  get0 (add_to g v d) f = if decide (g = f) then get0 d f + v else get0 d f.
Proof.
  unfold add_to, get0. case_decide as Hfg.
  - subst. by rewrite lookup_insert_eq.
  - by rewrite lookup_insert_ne.
Qed.

Lemma get0_fold_pending snap cur f :
  get0 (fold_pending snap cur) f = get0 snap f + get0 cur f.
Proof.
  unfold get0, fold_pending. rewrite lookup_union_with.
  destruct (snap !! f), (cur !! f); simpl; ring.
Qed.

Lemma dom_fold_pending snap cur :
  dom (fold_pending snap cur) = dom snap ∪ dom cur.
Proof.
  apply set_eq. intros f. rewrite elem_of_union, !elem_of_dom.
  unfold fold_pending. rewrite lookup_union_with.
  destruct (snap !! f), (cur !! f); simpl;
    rewrite <- ?not_eq_None_Some; naive_solver.
Qed.

Lemma elem_of_changes m f : f ∈ changes m ↔ get0 (current m) f ≠ 0.
Proof.
  unfold changes, get0. rewrite elem_of_dom. split.
  - intros [v Hv]. apply map_lookup_filter_Some in Hv as [-> Hv]. done.
  - destruct (current m !! f) as [v|] eqn:Hf; simpl; [|done].
    intros Hv. exists v. by apply map_lookup_filter_Some.
Qed.

Lemma changes_empty m : current m = ∅ → changes m = ∅.
Proof. unfold changes. intros ->. by rewrite map_filter_empty, dom_empty_L. Qed.

Lemma recent_update g v n m f : recent (update g v n m) f = recent m f.
Proof. done. Qed.

Lemma total_update g v n m f :
  total (update g v n m) f = if decide (g = f) then total m f + v else total m f.
Proof.
  unfold total. simpl. rewrite get0_add_to. case_decide; ring.
Qed.

Lemma total_commit e m f : total (commit e m) f = total m f.
Proof.
  unfold total. simpl. rewrite get0_fold_pending, get0_empty. ring.
Qed.

Lemma lookup_delta m fs f :
  delta m fs !! f = if decide (f ∈ fs) then Some (recent m f) else None.
Proof.
  unfold delta. case_decide as Hf.
  - apply lookup_set_to_map; [naive_solver|]. by exists f.
  - apply eq_None_not_Some. intros [x Hx].
    apply lookup_set_to_map in Hx as (y & Hy & Heq); [|naive_solver].
    by simplify_eq.
Qed.

Lemma dom_delta m fs : dom (delta m fs) = fs.
Proof.
  apply set_eq. intros f. rewrite elem_of_dom, lookup_delta.
  case_decide; [naive_solver|]. split; [by intros [? ?]|done].
Qed.

End MetricsFacts.

(** ** The invariants of [Metrics] *)

Section MetricsClaims.
Import Metrics MetricsFacts.

Lemma current_run cs m f :
  get0 (current (run cs m)) f = pending f cs (get0 (current m) f).
Proof.
  revert m. induction cs as [|[g v n|e] cs IH]; intros m; simpl; [done|..].
  - rewrite IH. simpl. by rewrite get0_add_to.
  - rewrite IH. simpl. by rewrite get0_empty.
Qed.

Lemma duration_run_no_commit cs m :
  forallb (λ c, negb (is_commit c)) cs = true → duration (run cs m) = duration m.
Proof.
  revert m. induction cs as [|[g v n|e] cs IH]; intros m; simpl; [done|..].
  - intros H. by rewrite IH.
  - done.
Qed.

(** C1. After any sequence of [update] and [commit] calls on a new entity,
    [total(field)] is [snapshot.get(field, 0) + current.get(field, 0)], which
    is [recent(field)] plus the sum of the deltas pending since the last
    commit; [recent(field)] is [snapshot.get(field, 0)], and a further
    [update] leaves it as it is. *)
Theorem C1_total_recent_invariant (w : Qc) (cs : list Call) (field : string) :
  let m := run cs (init w) in
  total m field = get0 (snapshot m) field + get0 (current m) field
  ∧ total m field = recent m field + pending field cs 0
  ∧ recent m field = get0 (snapshot m) field
  ∧ ∀ g v n, recent (update g v n m) field = recent m field.
Proof.
  intros m. repeat split.
  unfold total, recent. f_equal. unfold m. by rewrite current_run, get0_empty.
Qed.

(** C3. [rate(field)] is [total(field) / duration]; it raises
    [ZeroDivisionError] exactly when [duration == 0], which is the case as
    long as no commit was made, and nothing else is raised. *)
Theorem C3_rate_zero_division (m : Metrics.t) (field : string) :
  (rate m field = raise ZeroDivisionError ↔ duration m = 0)
  ∧ (duration m ≠ 0 → rate m field = ret (total m field / duration m))
  ∧ (∀ e, rate m field = raise e → e = ZeroDivisionError)
  ∧ (∀ w cs, forallb (λ c, negb (is_commit c)) cs = true →
       rate (run cs (init w)) field = raise ZeroDivisionError).
Proof.
  unfold rate, py_truediv. repeat split.
  - case_decide; [done|]. intros [=].
  - intros Hd. by case_decide.
  - intros Hd. by case_decide.
  - intros e. case_decide; intros [=]; done.
  - intros w cs Hcs. rewrite (duration_run_no_commit _ _ Hcs). case_decide as Hd; [done|]. by destruct Hd.
Qed.

(** C5. [commit(elapsed)] adds every pending delta to the snapshot, appends
    one history entry, adds [elapsed] to [duration] and empties [current], so
    that [changes()] is empty; [commit(0)] on a new entity leaves a history of
    length 1 and a duration of 0. *)
Theorem C5_commit (elapsed : Qc) (m : Metrics.t) :
  let m' := commit elapsed m in
  (∀ f, get0 (snapshot m') f = get0 (snapshot m) f + get0 (current m) f)
  ∧ dom (snapshot m') = dom (snapshot m) ∪ dom (current m)
  ∧ history m' = history m ++ [(snapshot m', elapsed)]
  ∧ length (history m') = S (length (history m))
  ∧ duration m' = duration m + elapsed
  ∧ current m' = ∅
  ∧ changes m' = ∅
  ∧ (∀ w, length (history (commit 0 (init w))) = 1%nat
          ∧ duration (commit 0 (init w)) = 0).
Proof.
  simpl. split_and!; try done.
  - intros f. apply get0_fold_pending.
  - apply dom_fold_pending.
  - rewrite length_app. simpl. lia.
Qed.

End MetricsClaims.

(** ** Trimming *)

Section TrimClaims.
Import Metrics MetricsFacts.

Lemma elapsed_sum_snoc h x : elapsed_sum (h ++ [x]) = elapsed_sum h + x.2.
Proof.
  induction h as [|y h IH]; simpl.
  - unfold elapsed_sum. simpl. ring.
  - unfold elapsed_sum in *. simpl. rewrite IH. ring.
Qed.

(** The marker of an entry is the duration at the commit that made it: a
    later commit leaves the markers as they are and gives the new entry the
    new duration. *)
Lemma marked_commit e m :
  marked (commit e m) =
  marked m ++ [(duration m + e, (fold_pending (snapshot m) (current m), e))].
Proof.
  unfold marked. simpl. generalize (duration m) as d.
  generalize (fold_pending (snapshot m) (current m)) as s.
  induction (history m) as [|x h IH]; intros s d; simpl.
  - f_equal. f_equal. ring.
  - rewrite IH. f_equal. f_equal.
    change (foldr _ 0 (h ++ [(s, e)])) with (elapsed_sum (h ++ [(s, e)])).
    rewrite elapsed_sum_snoc. unfold elapsed_sum. simpl. ring.
Qed.


Lemma elapsed_sum_nonneg h :
  Forall (λ e : gmap string Qc * Qc, 0 ≤ e.2) h → 0 ≤ elapsed_sum h.
Proof.
  induction 1 as [|x h Hx _ IH]; [done|].
  unfold elapsed_sum in *. simpl. by apply Qc_add_nonneg.
Qed.




End TrimClaims.

(** ** Running the primitives *)

Lemma bind_run {QS A B : Type} (c : M QS A) (k : A → M QS B) (st : State QS) :
  (c ≫= k) st = match c st with
                | (inr a, st') => k a st'
                | (inl e, st') => (inl e, st')
                end.
Proof. done. Qed.

Ltac munfold :=
  cbv [mbind M_bind gets modify emit mret mraise lookup_or try_except
       status_key read_status write_status new_status new_iter py_next
       os_pipe os_close ki_spawn popleft monitor_metrics upd_monitor
       ret raise];
  cbn beta iota.

(** Projections of updated states, without touching anything else. *)

Global Arguments upd_heap {QS} f st /.
Global Arguments upd_iters {QS} f st /.
Global Arguments upd_fds {QS} f st /.
Global Arguments upd_statusd {QS} f st /.
Global Arguments upd_status {QS} f st /.
Global Arguments upd_available {QS} f st /.
Global Arguments upd_monitors {QS} f st /.
Global Arguments upd_mtotals {QS} f st /.
Global Arguments upd_queue {QS} f st /.
Global Arguments upd_last {QS} f st /.
Global Arguments upd_message_count {QS} f st /.
Global Arguments upd_clock_reads {QS} f st /.
Global Arguments upd_passes {QS} f st /.
Global Arguments upd_trace {QS} f st /.
Global Arguments set_channel x s /.
Global Arguments set_pid pid s /.
Global Arguments set_transactions x s /.

Ltac st_simpl :=
  cbn [upd_heap upd_iters upd_fds upd_statusd upd_status upd_available
       upd_monitors upd_mtotals upd_queue upd_last upd_message_count
       upd_clock_reads upd_passes upd_trace
       heap iters fds statusd status available monitors mtotals queue last
       message_count clock_reads passes trace
       set_channel set_pid set_transactions
       st_channel st_source st_process_queue st_transactions st_pid].

Ltac mrun tac := repeat first [progress (munfold; st_simpl) | progress tac].

(** One step of a sequence, when the first command is a primitive. *)
Ltac mnext :=
  rewrite bind_run;
  cbv beta iota delta [gets modify emit mret mraise ret raise];
  st_simpl.

(** One step of a sequence: run the first command by the equation [L]. *)
Ltac mstep L := rewrite bind_run, L; cbv beta iota.


(** ** Launching *)

Section LaunchClaims.
Context {QS : Type}.
Implicit Types st : State QS.

(** C9. When the spawn of [_launch] raises after the pipe was made, both ends
    of the pipe are closed and then the error is raised again: the set of
    open descriptors is the one before the call. *)
Theorem C9_launch_failure_closes_pipe st loc s it spec rest e :
  heap st !! loc = Some s →
  st_process_queue s = Some it →
  iters st !! it = Some (spec :: rest) →
  (∀ fdmap, spawn (ps_ki spec) fdmap = raise e) →
  let rfd := fresh (fds st) in
  let wfd := fresh ({[rfd]} ∪ fds st) in
  let fdmap := [(0, 0); (wfd, 1); (2, 2)]%nat in
  ∃ st',
    _launch loc st = (raise e, st')
    ∧ trace st' = trace st ++ [EPipe rfd wfd; ESpawn fdmap (raise e);
                               EClose rfd; EClose wfd]
    ∧ fds st' = fds st
    ∧ (rfd ∉ fds st') ∧ (wfd ∉ fds st') ∧ rfd ≠ wfd.
Proof.
  intros Hs Hq Hit Hspawn rfd wfd fdmap.
  assert (rfd ∉ fds st) as Hr by apply is_fresh.
  assert (wfd ∉ {[rfd]} ∪ fds st) as Hw by apply is_fresh.
  assert (rfd ≠ wfd) as Hne by set_solver.
  subst rfd wfd fdmap. eexists. split.
  - unfold _launch.
    mrun ltac:(rewrite ?Hs, ?Hq, ?Hit, ?Hspawn).
    rewrite decide_True by set_solver.
    mrun idtac.
    rewrite decide_True by set_solver.
    reflexivity.
  - simpl. split_and!.
    + by rewrite <- !app_assoc.
    + set_solver.
    + set_solver.
    + set_solver.
    + done.
Qed.

End LaunchClaims.

(** ** Frames *)

Lemma on_lane_lookup lid f ms m :
  ms !! lid = Some m → on_lane lid f ms !! lid = Some (f m).
Proof.
  intros Hm. unfold on_lane. rewrite Hm.
  apply list_lookup_insert_eq. by eapply lookup_lt_Some.
Qed.

Lemma on_lane_lookup_ne lid lid' f ms :
  lid ≠ lid' → on_lane lid f ms !! lid' = ms !! lid'.
Proof.
  intros Hne. unfold on_lane. destruct (ms !! lid); [|done].
  by apply list_lookup_insert_ne.
Qed.

Lemma on_lane_compose lid f g ms :
  on_lane lid g (on_lane lid f ms) = on_lane lid (λ m, g (f m)) ms.
Proof.
  unfold on_lane at 1. destruct (ms !! lid) as [m|] eqn:Hm.
  - rewrite (on_lane_lookup _ _ _ _ Hm). unfold on_lane. rewrite Hm.
    apply list_insert_insert_eq.
  - unfold on_lane. by rewrite !Hm.
Qed.

Lemma on_lane_id lid ms : on_lane lid (λ m, m) ms = ms.
Proof.
  unfold on_lane. destruct (ms !! lid) eqn:Hm; [|done]. by apply list_insert_id.
Qed.

Lemma split_last_snoc {A : Type} (l : list A) (x : A) :
  split_last (l ++ [x]) = Some (l, x).
Proof. induction l as [|y l IH]; simpl; [done|]. by rewrite IH. Qed.

Lemma unpack_star_snoc {A : Type} (b : list A) (x : A) :
  unpack_star (b ++ [x]) =
  match b with
  | [] => None
  | start :: messages => Some (start, messages, x)
  end.
Proof. destruct b as [|y b]; simpl; [done|]. by rewrite split_last_snoc. Qed.

Section FrameClaims.
Context {QS : Type}.
Implicit Types st : State QS.

Lemma for_each_update_both lid l st :
  for_each l (λ '(n, u, c), update_both lid n u c) st =
  (inr tt,
   upd_mtotals (λ m, foldl (λ m '(n, u, c), Metrics.update n u c m) m l)
     (upd_monitors
        (on_lane lid (λ m, foldl (λ m '(n, u, c), Metrics.update n u c m) m l))
        st)).
Proof.
  revert st. induction l as [|[[n u] c] l IH]; intros st.
  - simpl. unfold mret, ret. f_equal. destruct st; simpl. unfold upd_mtotals, upd_monitors.
    simpl. by rewrite on_lane_id.
  - simpl. rewrite bind_run. unfold update_both at 1.
    mrun idtac. rewrite IH. f_equal. destruct st; unfold upd_mtotals, upd_monitors.
    simpl. by rewrite on_lane_compose.
Qed.

Lemma ingest_run lid data st :
  ingest lid data st =
  (inr tt, upd_mtotals (ingest_metrics data)
             (upd_monitors (on_lane lid (ingest_metrics data)) st)).
Proof.
  destruct data as [r|]; simpl.
  - rewrite bind_run. unfold update_both at 1. mrun idtac.
    rewrite for_each_update_both. f_equal.
    destruct st; unfold upd_mtotals, upd_monitors. simpl.
    by rewrite on_lane_compose.
  - unfold mret, ret. f_equal. destruct st; unfold upd_mtotals, upd_monitors.
    simpl. by rewrite on_lane_id.
Qed.

Lemma read_status_run loc s st :
  heap st !! loc = Some s → read_status loc st = (inr s, st).
Proof. intros Hs. unfold read_status. mrun ltac:(rewrite ?Hs). done. Qed.

Lemma status_key_run {A : Type} (key : Status → option A) loc s a st :
  heap st !! loc = Some s → key s = Some a → status_key key loc st = (inr a, st).
Proof. intros Hs Ha. unfold status_key. mrun ltac:(rewrite ?Hs, ?Ha). done. Qed.

Lemma write_status_run loc f s st :
  heap st !! loc = Some s →
  write_status loc f st = (inr tt, upd_heap (λ h, <[loc := f s]> h) st).
Proof. intros Hs. unfold write_status, modify, upd_heap. by rewrite Hs. Qed.

Lemma update_both_run lid n v c st :
  update_both lid n v c st =
  (inr tt, upd_mtotals (Metrics.update n v c)
             (upd_monitors (on_lane lid (Metrics.update n v c)) st)).
Proof. reflexivity. Qed.

Lemma handle_frame_stopped_run lid loc channel msg st s tx :
  heap st !! loc = Some s →
  st_transactions s = Some tx →
  msg_symbol msg = "transaction-stopped" →
  handle_frame lid loc (channel, msg) st =
  match unpack_star (default [] (tx !! channel) ++ [msg]) with
  | Some (start, messages, stop) =>
      (status_key st_channel loc
       ≫= λ xqual, emit (EEox lid stop start messages xqual))
  | None => mret tt
  end (after_stop lid loc channel msg s tx st).
Proof.
  intros Hs Htx Hsym.
  assert (loc < length (heap st))%nat as Hlt by by eapply lookup_lt_Some.
  unfold handle_frame. rewrite Hsym.
  rewrite decide_True by done.
  mstep (status_key_run _ _ _ _ _ Hs Htx).
  rewrite bind_run. erewrite write_status_run by exact Hs. cbv beta iota.
  mstep ingest_run.
  mstep update_both_run.
  rewrite bind_run.
  erewrite status_key_run; cycle 1.
  { st_simpl. by apply list_lookup_insert_eq. }
  { reflexivity. }
  cbv beta iota.
  rewrite bind_run. unfold lookup_or at 1. rewrite lookup_insert_eq.
  cbv beta iota delta [mret ret].
  rewrite bind_run.
  erewrite write_status_run; cycle 1.
  { st_simpl. by apply list_lookup_insert_eq. }
  cbv beta iota.
  f_equal.
  destruct st; unfold after_stop. st_simpl.
  by rewrite list_insert_insert_eq, delete_insert_eq, !on_lane_compose.
Qed.

(** What a [transaction-stopped] frame does to the state. *)
Lemma handle_frame_stopped lid loc channel msg st s tx xq :
  heap st !! loc = Some s →
  st_transactions s = Some tx →
  st_channel s = Some xq →
  msg_symbol msg = "transaction-stopped" →
  ∃ st',
    handle_frame lid loc (channel, msg) st = (inr tt, st')
    ∧ heap st' = <[loc := set_transactions (delete channel tx) s]> (heap st)
    ∧ monitors st' =
        on_lane lid (λ m, Metrics.update "executing" (-1) 0
                            (ingest_metrics (msg_data msg) m)) (monitors st)
    ∧ mtotals st' =
        Metrics.update "executing" (-1) 0 (ingest_metrics (msg_data msg) (mtotals st))
    ∧ trace st' =
        trace st ++ match default [] (tx !! channel) with
                    | [] => []
                    | start :: messages => [EEox lid msg start messages xq]
                    end.
Proof.
  intros Hs Htx Hxq Hsym.
  assert (loc < length (heap st))%nat as Hlt by by eapply lookup_lt_Some.
  rewrite (handle_frame_stopped_run _ _ _ _ _ _ _ Hs Htx Hsym), unpack_star_snoc.
  destruct (default [] (tx !! channel)) as [|start messages].
  - eexists. split; [reflexivity|]. unfold after_stop. st_simpl.
    by rewrite app_nil_r.
  - eexists. split.
    + rewrite bind_run. erewrite status_key_run; cycle 1.
      { unfold after_stop. st_simpl. by apply list_lookup_insert_eq. }
      { exact Hxq. }
      cbv beta iota. reflexivity.
    + unfold after_stop. st_simpl. done.
Qed.

(** C2. A [transaction-stopped] frame pops the buffer of its channel. When
    frames were accumulated before it, the first being [start], the trap
    [eox] is called once, with the stop frame, the start frame, the frames in
    between and the channel qualifier of the job; when the stop frame is alone
    in the buffer, the trap is not called. *)
Theorem C2_transaction_stopped_trap lid loc channel msg st s tx xq :
  heap st !! loc = Some s →
  st_transactions s = Some tx →
  st_channel s = Some xq →
  msg_symbol msg = "transaction-stopped" →
  ∃ st' s',
    handle_frame lid loc (channel, msg) st = (inr tt, st')
    ∧ heap st' !! loc = Some s'
    ∧ st_transactions s' = Some (delete channel tx)
    ∧ (∀ start messages,
         default [] (tx !! channel) = start :: messages →
         trace st' = trace st ++ [EEox lid msg start messages xq])
    ∧ (default [] (tx !! channel) = [] → trace st' = trace st).
Proof.
  intros Hs Htx Hxq Hsym.
  destruct (handle_frame_stopped lid loc channel msg st s tx xq Hs Htx Hxq Hsym)
    as (st' & Hrun & Hheap & _ & _ & Htrace).
  exists st', (set_transactions (delete channel tx) s). split_and!; [done|..].
  - rewrite Hheap. apply list_lookup_insert_eq. by eapply lookup_lt_Some.
  - done.
  - intros start messages Hb. by rewrite Htrace, Hb.
  - intros Hb. by rewrite Htrace, Hb, app_nil_r.
Qed.

(** C10. A [transaction-stopped] frame takes 1 from the [executing] field of
    the metrics of the lane and of the aggregate, whatever its buffer holds:
    an unmatched one, for which no trap is called, does so too. *)
Theorem C10_stopped_decrements_executing lid loc channel msg st s tx xq m :
  heap st !! loc = Some s →
  st_transactions s = Some tx →
  st_channel s = Some xq →
  msg_symbol msg = "transaction-stopped" →
  monitors st !! lid = Some m →
  ∃ st' m',
    handle_frame lid loc (channel, msg) st = (inr tt, st')
    ∧ monitors st' !! lid = Some m'
    ∧ Metrics.total m' "executing" =
        Metrics.total (ingest_metrics (msg_data msg) m) "executing" - 1
    ∧ Metrics.total (mtotals st') "executing" =
        Metrics.total (ingest_metrics (msg_data msg) (mtotals st)) "executing" - 1
    ∧ (msg_data msg = OtherData →
         Metrics.total m' "executing" = Metrics.total m "executing" - 1
         ∧ Metrics.total (mtotals st') "executing" =
             Metrics.total (mtotals st) "executing" - 1)
    ∧ (default [] (tx !! channel) = [] → trace st' = trace st).
Proof.
  intros Hs Htx Hxq Hsym Hm.
  destruct (handle_frame_stopped lid loc channel msg st s tx xq Hs Htx Hxq Hsym)
    as (st' & Hrun & _ & Hmons & Htot & Htrace).
  exists st', (Metrics.update "executing" (-1) 0 (ingest_metrics (msg_data msg) m)).
  assert (∀ x, Metrics.total (Metrics.update "executing" (-1) 0 x) "executing"
               = Metrics.total x "executing" - 1) as Hdec.
  { intros x. rewrite MetricsFacts.total_update. by rewrite decide_True. }
  split_and!; [done|..].
  - rewrite Hmons. by rewrite (on_lane_lookup _ _ _ _ Hm).
  - apply Hdec.
  - rewrite Htot. apply Hdec.
  - intros Hd. rewrite Htot, !Hdec, Hd. done.
  - intros Hb. by rewrite Htrace, Hb, app_nil_r.
Qed.

End FrameClaims.

(** ** The metrics tick *)

Section TickClaims.
Context {QS : Type}.
Variable env : Env QS.
Variable title : string.
Variable window : Qc.
Implicit Types st : State QS.

Lemma tick_monitor_run elapsed lid m st :
  monitors st !! lid = Some m →
  tick_monitor window elapsed lid st =
  (inr tt,
   upd_trace (λ t, t ++ [EUpdate (Monitor lid)
                           (Metrics.delta (Metrics.trim window (Metrics.commit elapsed m))
                                          (Metrics.changes m))])
     (upd_monitors (on_lane lid (λ m, Metrics.trim window (Metrics.commit elapsed m))) st)).
Proof.
  intros Hm. unfold tick_monitor.
  mrun ltac:(rewrite ?Hm, ?on_lane_compose, ?(on_lane_lookup _ _ _ _ Hm)).
  done.
Qed.

Lemma on_lane_middle f pre m ms :
  on_lane (length pre) f (pre ++ m :: ms) = pre ++ f m :: ms.
Proof.
  unfold on_lane. rewrite list_lookup_middle by done.
  replace (length pre) with (length pre + 0)%nat at 1 by lia.
  by rewrite insert_app_r.
Qed.

Lemma tick_monitors_run elapsed pre ms st :
  monitors st = pre ++ ms →
  let step := λ m, Metrics.trim window (Metrics.commit elapsed m) in
  for_each (seq (length pre) (length ms)) (tick_monitor window elapsed) st =
  (inr tt,
   upd_trace (λ t, t ++ tick_updates (length pre) step ms)
     (upd_monitors (λ _, pre ++ (step <$> ms)) st)).
Proof.
  intros Hms step. revert pre st Hms.
  induction ms as [|m ms IH]; intros pre st Hms.
  - cbn [length seq for_each tick_updates fmap list_fmap]. unfold mret, ret.
    st_simpl. rewrite <- Hms, app_nil_r. by destruct st.
  - cbn [length seq for_each tick_updates].
    rewrite bind_run.
    rewrite (tick_monitor_run elapsed (length pre) m)
      by (rewrite Hms; by apply list_lookup_middle).
    cbv beta iota.
    specialize (IH (pre ++ [step m])). rewrite length_app in IH.
    cbn [length] in IH. rewrite Nat.add_1_r in IH. rewrite IH.
    + st_simpl. rewrite <- !app_assoc. csimpl. done.
    + st_simpl. rewrite Hms, on_lane_middle. by rewrite <- app_assoc.
Qed.

Lemma tick_run st :
  tick env title window st = (inr tt, after_tick env title window st).
Proof.
  unfold tick, summary_title.
  do 5 mnext.
  rewrite bind_run.
  rewrite (tick_monitors_run _ [] (monitors st)) by done.
  cbv beta iota. st_simpl. repeat mnext.
  unfold after_tick. cbn [app length]. by rewrite <- !app_assoc.
Qed.

(** C6. In the metrics tick a measured time of zero milliseconds counts as
    one; the metrics of every lane, in the order of the lanes, and then the
    aggregate are committed with that one elapsed time and trimmed to the
    window; after each commit the control is sent the recent values of the
    fields that [changes()] gave before it, which are those with a nonzero
    pending delta. *)
Theorem C6_metrics_tick st :
  let next_time := clock env (clock_reads st) in
  let ms := select_millisecond env (decrease env next_time (last st)) in
  let elapsed := elapsed_of env next_time (last st) in
  let step := λ m, Metrics.trim window (Metrics.commit elapsed m) in
  ∃ st',
    tick env title window st = (inr tt, st')
    ∧ (ms = 0%Z → elapsed = Qc_of_Z 1 / Qc_of_Z 1000)
    ∧ (ms ≠ 0%Z → elapsed = Qc_of_Z ms / Qc_of_Z 1000)
    ∧ monitors st' = step <$> monitors st
    ∧ mtotals st' = step (mtotals st)
    ∧ last st' = next_time
    ∧ trace st' =
        trace st
        ++ tick_updates 0 step (monitors st)
        ++ [ETitle Summary title [join_status (queue_status env (queue st))];
            EFrame Summary;
            EUpdate Summary (Metrics.delta (step (mtotals st))
                                           (Metrics.changes (mtotals st)));
            EFlush]
    ∧ (∀ m f, f ∈ Metrics.changes m ↔ Metrics.get0 (Metrics.current m) f ≠ 0)
    ∧ (∀ m fs f, Metrics.delta m fs !! f =
                 if decide (f ∈ fs) then Some (Metrics.recent m f) else None).
Proof.
  intros next_time ms elapsed step. exists (after_tick env title window st).
  split; [apply tick_run|].
  unfold after_tick. st_simpl. split_and!; try done.
  - intros Hms. unfold elapsed, elapsed_of. fold next_time ms. by rewrite decide_True.
  - intros Hms. unfold elapsed, elapsed_of. fold next_time ms. by rewrite decide_False.
  - apply MetricsFacts.elem_of_changes.
  - apply MetricsFacts.lookup_delta.
Qed.

End TickClaims.

(** ** Admission *)

Lemma dict_get_set {V : Type} (k : nat) (v : V) (d : list (nat * V)) :
  dict_get k (dict_set k v d) = Some v.
Proof.
  induction d as [|[k' v'] d IH]; simpl.
  - by rewrite decide_True.
  - case_decide as Hk; simpl; [by rewrite decide_True|]. by rewrite decide_False.
Qed.

Section AdmissionClaims.
Context {QS : Type}.
Variable env : Env QS.
Implicit Types st : State QS.

(** What the admission of a work item with an empty plan does: the item is
    finished, the monitor erased and the lane made available again, with no
    pipe, spawn or connect; the new [status] stays in [statusd]. *)
Lemma take_in_empty_plan ident lid rest m st :
  available st = lid :: rest →
  plan env ident = [] →
  monitors st !! lid = Some m →
  ∃ st',
    take_in env ident st = (inr tt, st')
    ∧ statusd st' = dict_set lid (length (heap st)) (statusd st)
    ∧ dict_get lid (statusd st') = Some (length (heap st))
    ∧ heap st' = heap st ++ [MkStatus (Some None) (Some ident)
                                      (Some (length (iters st))) (Some ∅) None]
    ∧ status st' = Some (length (heap st))
    ∧ available st' = rest ++ [lid]
    ∧ trace st' = trace st ++ [EFinish ident; EErase (Monitor lid)].
Proof.
  intros Hav Hplan Hm. eexists. split.
  { unfold take_in, _launch, finish. rewrite Hplan.
    mrun ltac:(rewrite ?Hav, ?Hm, ?lookup_app_r, ?Nat.sub_diag,
                       ?bool_decide_eq_true_2 by done;
               cbn [lookup list_lookup]).
    reflexivity. }
  st_simpl. split_and!; try done.
  - apply dict_get_set.
  - by rewrite <- app_assoc.
Qed.

End AdmissionClaims.

(** ** Scenarios *)

Example one_job_returns :
  Scenario.one_job_run.1 = Returned
  ∧ statusd Scenario.one_job_run.2 = []
  ∧ spawned (trace Scenario.one_job_run.2) = [100%nat]
  ∧ finished (trace Scenario.one_job_run.2) = ["a"]
  ∧ killed (trace Scenario.one_job_run.2) = []
  ∧ eox_calls (trace Scenario.one_job_run.2) =
      [(0%nat, Scenario.stopped, Scenario.started, [], Some "xqual")].
Proof. vm_compute. done. Qed.

Example empty_plan_three_turns :
  (Scenario.empty_plan_run 3%nat).1 = Running
  ∧ statusd (Scenario.empty_plan_run 3%nat).2 = [(0%nat, 0%nat)]
  ∧ available (Scenario.empty_plan_run 3%nat).2 = [0%nat]
  ∧ finished (trace (Scenario.empty_plan_run 3%nat).2) = ["a"]
  ∧ spawned (trace (Scenario.empty_plan_run 3%nat).2) = []
  ∧ connected (trace (Scenario.empty_plan_run 3%nat).2) = [].
Proof. vm_compute. done. Qed.

(** C8. Three lanes, the spawn for the third raises: the frame array is
    released and the process group of lane 0 is killed; the reap that follows
    reads the pid of [status], the record of lane 2, which has none: the
    [KeyError] leaves [dispatch] and lane 1, whose process 101 runs, is never
    sent a signal. *)
Theorem C8_cleanup_stops_at_reap :
  Scenario.failing_run.1 = Raised KeyError
  ∧ statusd Scenario.failing_run.2 = [(0, 0); (1, 1); (2, 2)]%nat
  ∧ st_pid <$> heap Scenario.failing_run.2 = [Some 100; Some 101; None]%nat
  ∧ status Scenario.failing_run.2 = Some 2%nat
  ∧ spawned (trace Scenario.failing_run.2) = [100; 101]%nat
  ∧ killed (trace Scenario.failing_run.2) = [100%nat]
  ∧ list.last (trace Scenario.failing_run.2) = Some (EKillpg 100%nat true)
  ∧ released (trace Scenario.failing_run.2) = 1%nat.
Proof. vm_compute. done. Qed.

(** ** An empty plan leaves its session behind *)

Lemma stuck_turn st :
  stuck st →
  ∃ st', turn Scenario.empty_plan_env "jobs" (Qc_of_Z 8) st = (inr true, st')
         ∧ stuck st'.
Proof.
  intros (Hav & Hsd & Hq & Hheap & Hit & Hmon).
  destruct (heap st !! (0%nat : Loc)) as [s|] eqn:Hs; [|done]. cbn in Hheap.
  assert (0 < length (heap st))%nat as Hlt by by eapply lookup_lt_Some.
  eexists. split.
  { unfold turn, admission.
    mrun ltac:(first
      [ rewrite Hav | rewrite Hsd | rewrite Hq | rewrite Hs | rewrite Hit
      | rewrite Hheap | rewrite tick_run
      | rewrite list_lookup_middle by done
      | rewrite bool_decide_eq_true_2 by done
      | rewrite decide_True by done
      | progress unfold _launch
      | progress cbn [Scenario.empty_plan_env Scenario.list_env queue_take
                      queue_terminal ioa_poll length take drop for_each
                      fmap list_fmap backfill backfill_lane fst dict_get] ]).
    reflexivity. }
  unfold stuck, after_tick. st_simpl. split_and!; try done.
  - rewrite lookup_app_l by done.
    transitivity (Some s ≫= st_process_queue); [f_equal; exact Hs|exact Hheap].
  - by rewrite length_fmap.
Qed.

Lemma stuck_loop turns st :
  stuck st →
  ∃ st', loop Scenario.empty_plan_env "jobs" (Qc_of_Z 8) turns st = (Running, st')
         ∧ stuck st'.
Proof.
  revert st. induction turns as [|n IH]; intros st Hst.
  - by exists st.
  - destruct (stuck_turn st Hst) as (st1 & Hturn & Hst1).
    cbn [loop]. rewrite Hturn. by apply IH.
Qed.

Lemma stuck_first_turn :
  ∃ st', turn Scenario.empty_plan_env "jobs" (Qc_of_Z 8)
              (start Scenario.empty_plan_env "jobs" [Scenario.m8] Scenario.m8 ["a"])
         = (inr true, st')
         ∧ stuck st'.
Proof.
  eexists. split.
  - vm_compute. reflexivity.
  - vm_compute. done.
Qed.

(** C7. The work item with the empty plan is reported finished and its lane
    is made available again, but the status made for the admission stays in
    [statusd]: the queue is terminal and yet the loop never ends, however many
    turns it is given. *)
Theorem C7_empty_plan_keeps_session (turns : nat) :
  let r := Scenario.empty_plan_run (S turns) in
  r.1 = Running
  ∧ dict_get 0%nat (statusd r.2) = Some 0%nat
  ∧ available r.2 = [0%nat]
  ∧ queue_terminal Scenario.empty_plan_env (queue r.2) = true.
Proof.
  destruct stuck_first_turn as (st1 & Hturn & Hst1).
  destruct (stuck_loop turns st1 Hst1) as (st2 & Hloop & Hst2).
  unfold Scenario.empty_plan_run, dispatch. cbn [loop].
  rewrite Hturn, Hloop. cbn [fst snd].
  destruct Hst2 as (Hav & Hsd & Hq & _). rewrite Hav, Hsd, Hq. done.
Qed.

(** ** The [finally] block *)

Section CleanupFacts.
Context {QS : Type}.
Variable env : Env QS.
Implicit Types st : State QS.

Ltac kill_run Hsd Hs Hpid :=
  unfold kill_lane;
  mrun ltac:(first [ rewrite Hsd | rewrite Hs | rewrite Hpid
                   | rewrite bool_decide_eq_true_2 by auto ]).

(** X12. A status without a pid: the [KeyError] is swallowed, no signal is
    sent. *)
Lemma kill_lane_no_pid lid loc s st :
  dict_get lid (statusd st) = Some loc →
  heap st !! loc = Some s →
  st_pid s = None →
  ∃ st', kill_lane env lid st = (inr tt, st') ∧ trace st' = trace st.
Proof.
  intros Hsd Hs Hpid. eexists. split; [kill_run Hsd Hs Hpid; reflexivity|done].
Qed.

(** X13. A process group that is gone: the [ProcessLookupError] is swallowed. *)
Lemma kill_lane_gone lid loc s pid st :
  dict_get lid (statusd st) = Some loc →
  heap st !! loc = Some s →
  st_pid s = Some pid →
  killpg env pid = false →
  ∃ st', kill_lane env lid st = (inr tt, st')
         ∧ trace st' = trace st ++ [EKillpg pid false].
Proof.
  intros Hsd Hs Hpid Hk. eexists. split.
  - kill_run Hsd Hs Hpid. rewrite Hk.
    mrun ltac:(rewrite bool_decide_eq_true_2 by auto). reflexivity.
  - done.
Qed.

(** A delivered signal is followed by the reap of [status['pid']], where
    [status] is the record that the loop used last, not the one of the lane:
    without a pid in it, the [KeyError] is raised. *)
Lemma kill_lane_reap_of_status lid loc s pid cur s' st :
  dict_get lid (statusd st) = Some loc →
  heap st !! loc = Some s →
  st_pid s = Some pid →
  killpg env pid = true →
  status st = Some cur →
  heap st !! cur = Some s' →
  ∃ st', kill_lane env lid st =
           (match st_pid s' with Some _ => inr tt | None => inl KeyError end, st')
         ∧ trace st' = trace st ++ EKillpg pid true
                                   :: match st_pid s' with
                                      | Some pid' => [EReap pid']
                                      | None => []
                                      end.
Proof.
  intros Hsd Hs Hpid Hk Hcur Hs'.
  destruct (st_pid s') as [pid'|] eqn:Hpid'.
  - eexists. split.
    + kill_run Hsd Hs Hpid. rewrite Hk.
      mrun ltac:(first [rewrite Hcur | rewrite Hs' | rewrite Hpid']). reflexivity.
    + st_simpl. by rewrite <- app_assoc.
  - eexists. split.
    + kill_run Hsd Hs Hpid. rewrite Hk.
      mrun ltac:(first [rewrite Hcur | rewrite Hs' | rewrite Hpid']). reflexivity.
    + done.
Qed.

Lemma grows_ret {A : Type} (a : A) : grows (@mret QS A a).
Proof. intros st. exists []. by rewrite app_nil_r. Qed.

Lemma grows_raise {A : Type} (e : Exn) : grows (@mraise QS A e).
Proof. intros st. exists []. by rewrite app_nil_r. Qed.

Lemma grows_gets {A : Type} (f : State QS → A) : grows (gets f).
Proof. intros st. exists []. by rewrite app_nil_r. Qed.

Lemma grows_emit ev : grows (@emit QS ev).
Proof. intros st. by exists [ev]. Qed.

Lemma grows_lookup_or {A : Type} e (o : option A) : grows (@lookup_or QS A e o).
Proof. destruct o; [apply grows_ret|apply grows_raise]. Qed.

Lemma grows_bind {A B : Type} (c : M QS A) (k : A → M QS B) :
  grows c → (∀ a, grows (k a)) → grows (c ≫= k).
Proof.
  intros Hc Hk st. rewrite bind_run. destruct (Hc st) as [tr1 H1].
  destruct (c st) as [[e|a] st1]; cbn [snd] in *.
  - by exists tr1.
  - destruct (Hk a st1) as [tr2 H2]. exists (tr1 ++ tr2).
    by rewrite H2, H1, app_assoc.
Qed.

Lemma grows_try {A : Type} (c : M QS A) catches (h : Exn → M QS A) :
  grows c → (∀ e, grows (h e)) → grows (try_except c catches h).
Proof.
  intros Hc Hh st. unfold try_except. destruct (Hc st) as [tr1 H1].
  destruct (c st) as [[e|a] st1]; cbn [snd] in *.
  - destruct (catches e); [|by exists tr1].
    destruct (Hh e st1) as [tr2 H2]. exists (tr1 ++ tr2).
    by rewrite H2, H1, app_assoc.
  - by exists tr1.
Qed.

Lemma grows_for_each {A : Type} (l : list A) (body : A → M QS unit) :
  (∀ x, grows (body x)) → grows (for_each l body).
Proof.
  intros Hb. induction l as [|x l IH]; cbn [for_each].
  - apply grows_ret.
  - apply grows_bind; [apply Hb|]. intros _. apply IH.
Qed.

Lemma grows_status_key {A : Type} (key : Status → option A) loc :
  grows (@status_key QS A key loc).
Proof.
  unfold status_key, read_status.
  repeat first [ apply grows_bind; [|intros ?] | apply grows_gets
               | apply grows_lookup_or ].
Qed.

Lemma grows_kill_lane lid : grows (kill_lane env lid).
Proof.
  unfold kill_lane.
  apply grows_bind.
  - apply grows_try; [|intros ?; apply grows_ret].
    repeat first [ apply grows_bind; [|intros ?] | apply grows_gets
                 | apply grows_lookup_or | apply grows_status_key
                 | apply grows_emit ].
    destruct (killpg env _); [apply grows_ret|apply grows_raise].
  - intros [|]; [|apply grows_ret].
    repeat first [ apply grows_bind; [|intros ?] | apply grows_gets
                 | apply grows_lookup_or | apply grows_status_key
                 | apply grows_emit ].
Qed.

(** X10. The frame array is released before anything else, however the block
    ends. *)
Lemma cleanup_releases st :
  ∃ tr, trace (cleanup env st).2 = trace st ++ EIoaExit :: tr.
Proof.
  unfold cleanup. rewrite bind_run.
  cbv beta iota delta [emit modify]. rewrite bind_run.
  cbv beta iota delta [gets ret].
  destruct (grows_for_each (statusd (upd_trace (λ t, t ++ [EIoaExit]) st)).*1
              (kill_lane env) (grows_kill_lane)
              (upd_trace (λ t, t ++ [EIoaExit]) st)) as [tr Htr].
  exists tr. rewrite Htr. st_simpl. by rewrite <- app_assoc.
Qed.

End CleanupFacts.

(** ** The claims at concrete inputs *)

Lemma C9_witness :
  ∃ st',
    _launch 0%nat Scenario.launch_state = (raise OSError, st')
    ∧ trace st' =
        trace Scenario.launch_state
        ++ [EPipe 3%nat 4%nat;
            ESpawn [(0, 0); (4, 1); (2, 2)]%nat (raise OSError);
            EClose 3%nat; EClose 4%nat]
    ∧ fds st' = fds Scenario.launch_state
    ∧ (3%nat ∉ fds st') ∧ (4%nat ∉ fds st') ∧ 3%nat ≠ 4%nat.
Proof.
  apply (C9_launch_failure_closes_pipe Scenario.launch_state 0%nat
           (MkStatus (Some None) (Some "c") (Some 0%nat) (Some ∅) None)
           0%nat Scenario.bad_spec [] OSError);
    [reflexivity | reflexivity | reflexivity | intros; reflexivity].
Defined.

Lemma C2_witness :
  ∃ st' s',
    handle_frame 0%nat 0%nat ("c", Scenario.stopped)
      (Scenario.frame_state Scenario.open_tx) = (inr tt, st')
    ∧ heap st' !! 0%nat = Some s'
    ∧ st_transactions s' = Some (delete "c" Scenario.open_tx)
    ∧ (∀ start messages,
         default [] (Scenario.open_tx !! "c") = start :: messages →
         trace st' =
         trace (Scenario.frame_state Scenario.open_tx)
         ++ [EEox 0%nat Scenario.stopped start messages (Some "xqual")])
    ∧ (default [] (Scenario.open_tx !! "c") = [] →
       trace st' = trace (Scenario.frame_state Scenario.open_tx)).
Proof.
  apply (C2_transaction_stopped_trap 0%nat 0%nat "c" Scenario.stopped
           (Scenario.frame_state Scenario.open_tx)
           (MkStatus (Some (Some "xqual")) (Some "a") (Some 0%nat)
                     (Some Scenario.open_tx) (Some 100%nat))
           Scenario.open_tx (Some "xqual"));
    reflexivity.
Defined.

Lemma C10_witness :
  ∃ st' m',
    handle_frame 0%nat 0%nat ("d", Scenario.stopped) (Scenario.frame_state ∅)
    = (inr tt, st')
    ∧ monitors st' !! 0%nat = Some m'
    ∧ Metrics.total m' "executing" =
        Metrics.total (ingest_metrics (msg_data Scenario.stopped) Scenario.m8)
                      "executing" - 1
    ∧ Metrics.total (mtotals st') "executing" =
        Metrics.total (ingest_metrics (msg_data Scenario.stopped)
                         (mtotals (Scenario.frame_state ∅))) "executing" - 1
    ∧ (msg_data Scenario.stopped = OtherData →
         Metrics.total m' "executing" = Metrics.total Scenario.m8 "executing" - 1
         ∧ Metrics.total (mtotals st') "executing" =
             Metrics.total (mtotals (Scenario.frame_state ∅)) "executing" - 1)
    ∧ (default [] ((∅ : gmap Chan (list Message)) !! "d") = [] →
       trace st' = trace (Scenario.frame_state ∅)).
Proof.
  apply (C10_stopped_decrements_executing 0%nat 0%nat "d" Scenario.stopped
           (Scenario.frame_state ∅)
           (MkStatus (Some (Some "xqual")) (Some "a") (Some 0%nat)
                     (Some ∅) (Some 100%nat))
           ∅ (Some "xqual") Scenario.m8);
    reflexivity.
Defined.

(** A lone [transaction-stopped] on new metrics: no trap, and the gauge is
    below zero for the lane and for the aggregate. *)
Example lone_stop_negative :
  let st' := (handle_frame 0%nat 0%nat ("d", Scenario.stopped)
                (Scenario.frame_state ∅)).2 in
  eox_calls (trace st') = []
  ∧ (∃ m', monitors st' !! 0%nat = Some m' ∧ Metrics.total m' "executing" < 0)
  ∧ Metrics.total (mtotals st') "executing" < 0.
Proof.
  cbv zeta. split_and!.
  - vm_compute. reflexivity.
  - eexists. split; [vm_compute; reflexivity|]. vm_compute. reflexivity.
  - vm_compute. reflexivity.
Qed.

(** ** The tests of [test_terminal.py] on the model *)

Module MetricsTests.
Import Metrics.

Ltac by_computation := apply (bool_decide_unpack _); vm_compute; exact I.

Example test_Metrics_init :
  window (init (Qc_of_Z 12)) = Qc_of_Z 12
  ∧ history (init (Qc_of_Z 12)) = []
  ∧ current (init (Qc_of_Z 12)) = ∅
  ∧ snapshot (init (Qc_of_Z 12)) = ∅
  ∧ duration (init (Qc_of_Z 12)) = 0.
Proof. done. Qed.

Example test_Metrics_clear :
  let m := commit 1 (update "k" 1 1 (init (Qc_of_Z 8))) in
  total m "k" = 1 ∧ duration m = 1
  ∧ duration (clear m) = 0 ∧ history (clear m) = []
  ∧ snapshot (clear m) = ∅ ∧ current (clear m) = ∅.
Proof. cbv zeta. split_and!; try done; by_computation. Qed.

Example test_Metrics_commit :
  let m := init (Qc_of_Z 8) in
  length (history m) = 0%nat
  ∧ duration (commit 0 m) = 0 ∧ length (history (commit 0 m)) = 1%nat
  ∧ duration (commit 1 (commit 0 m)) = 1
  ∧ length (history (commit 1 (commit 0 m))) = 2%nat
  ∧ duration (commit 1 (commit 1 (commit 0 m))) = Qc_of_Z 2
  ∧ length (history (commit 1 (commit 1 (commit 0 m)))) = 3%nat.
Proof. cbv zeta. split_and!; try done; by_computation. Qed.

Example test_Metrics_total :
  let m := update "k" 1 1 (init (Qc_of_Z 8)) in
  total m "k" = 1 ∧ duration m = 0
  ∧ total (commit 1 m) "k" = 1 ∧ duration (commit 1 m) = 1.
Proof. cbv zeta. split_and!; try done; by_computation. Qed.

Example test_Metrics_rate :
  let m := update "k" 1 1 (init (Qc_of_Z 8)) in
  rate m "k" = raise ZeroDivisionError ∧ duration m = 0
  ∧ rate (commit (Qc_of_Z 2) m) "k" = ret (1 / Qc_of_Z 2).
Proof. cbv zeta. split_and!; try done; by_computation. Qed.

Example test_Metrics_recent :
  let m := update "k" 1 1 (init (Qc_of_Z 8)) in
  let m' := commit 1 (update "k" 1 1 (update "k" 1 1 (commit (Qc_of_Z 2) m))) in
  recent m "k" = 0 ∧ duration m = 0
  ∧ recent (commit (Qc_of_Z 2) m) "k" = 1
  ∧ recent m' "k" = Qc_of_Z 3 ∧ total m' "k" = Qc_of_Z 3.
Proof. cbv zeta. split_and!; try done; by_computation. Qed.

Example test_Metrics_changes :
  let m := update "k3" (Qc_of_Z 3) 1
             (update "k2" (Qc_of_Z 3) 1 (update "k1" 1 1 (init (Qc_of_Z 8)))) in
  changes (init (Qc_of_Z 8)) = ∅
  ∧ changes m = {["k1"; "k2"; "k3"]}
  ∧ changes (commit 1 m) = ∅.
Proof. cbv zeta. split_and!; by_computation. Qed.

Example test_Metrics_trim :
  length (history (commits 3)) = 3%nat
  ∧ rate (commits 3) "k" = ret (Qc_of_Z 5)
  ∧ rate (trim_default (commits 3)) "k" = ret (Qc_of_Z 5)
  ∧ length (history (trim_default (commits 3))) = 3%nat.
Proof. split_and!; by_computation. Qed.

Example test_Metrics_trim_exclusion :
  length (history (commits 4)) = 4%nat
  ∧ rate (commits 4) "k" = ret (Qc_of_Z 5)
  ∧ rate (trim_default (commits 4)) "k" = ret (Qc_of_Z 5)
  ∧ length (history (trim_default (commits 4))) = 3%nat.
Proof. split_and!; by_computation. Qed.

End MetricsTests.

(** ** Further instances *)

Lemma C3_witness :
  let m := Metrics.commit (Qc_of_Z 2) (Metrics.update "k" 1 1 (Metrics.init (Qc_of_Z 8))) in
  (Metrics.rate m "k" = raise ZeroDivisionError ↔ Metrics.duration m = 0)
  ∧ (Metrics.duration m ≠ 0 →
     Metrics.rate m "k" = ret (Metrics.total m "k" / Metrics.duration m))
  ∧ (∀ e, Metrics.rate m "k" = raise e → e = ZeroDivisionError)
  ∧ (∀ w cs, forallb (λ c, negb (is_commit c)) cs = true →
       Metrics.rate (run cs (Metrics.init w)) "k" = raise ZeroDivisionError).
Proof.
  exact (C3_rate_zero_division
           (Metrics.commit (Qc_of_Z 2)
              (Metrics.update "k" 1 1 (Metrics.init (Qc_of_Z 8)))) "k").
Defined.


(** A frame of another kind on the channel counts as the first frame of the
    buffer: the stop frame that follows calls the trap with it. *)
Example stray_frame_then_stop :
  let stray := MkMessage "message" OtherData in
  eox_calls
    (trace (handle_frame 0%nat 0%nat ("c", Scenario.stopped)
              (Scenario.frame_state {["c" := [stray]]})).2)
  = [(0%nat, Scenario.stopped, stray, [], Some "xqual")].
Proof. vm_compute. reflexivity. Qed.

(** ** More on launching *)

Section LaunchFacts.
Context {QS : Type}.
Implicit Types st : State QS.

(** X1. With the plan exhausted [_launch] gives [None] and does nothing: no
    pipe, no spawn, the status as it was. *)
Theorem launch_exhausted st loc s it :
  heap st !! loc = Some s →
  st_process_queue s = Some it →
  iters st !! it = Some [] →
  _launch loc st = (inr None, st).
Proof.
  intros Hs Hq Hit. unfold _launch.
  mrun ltac:(first [ rewrite Hs | rewrite Hq | rewrite Hit
                   | rewrite bool_decide_eq_true_2 by done ]).
  by destruct st.
Qed.

(** X2. A successful [_launch] takes one spec from the plan, records its channel
    qualifier and the pid in the status, and keeps of the new pipe the read
    end only, which it returns with the category and the dimensions. *)
Theorem launch_success st loc s it spec rest pid :
  heap st !! loc = Some s →
  st_process_queue s = Some it →
  iters st !! it = Some (spec :: rest) →
  (∀ fdmap, spawn (ps_ki spec) fdmap = ret pid) →
  let rfd := fresh (fds st) in
  let wfd := fresh ({[rfd]} ∪ fds st) in
  ∃ st',
    _launch loc st = (inr (Some (rfd, ps_category spec, ps_dimensions spec)), st')
    ∧ heap st' = <[loc := set_pid pid (set_channel (Some (ps_xqual spec)) s)]> (heap st)
    ∧ iters st' = <[it := rest]> (iters st)
    ∧ fds st' = {[rfd]} ∪ fds st
    ∧ (rfd ∉ fds st) ∧ (wfd ∉ fds st')
    ∧ trace st' = trace st ++ [EPipe rfd wfd;
                               ESpawn [(0, 0); (wfd, 1); (2, 2)]%nat (ret pid);
                               EClose wfd]
    ∧ statusd st' = statusd st ∧ available st' = available st
    ∧ monitors st' = monitors st ∧ mtotals st' = mtotals st
    ∧ queue st' = queue st ∧ status st' = status st.
Proof.
  intros Hs Hq Hit Hspawn rfd wfd.
  assert (rfd ∉ fds st) as Hr by apply is_fresh.
  assert (wfd ∉ {[rfd]} ∪ fds st) as Hw by apply is_fresh.
  assert (loc < length (heap st))%nat as Hlt by by eapply lookup_lt_Some.
  subst rfd wfd. eexists. split.
  - unfold _launch.
    mrun ltac:(first [ rewrite Hs | rewrite Hq | rewrite Hit | rewrite Hspawn
                     | rewrite list_lookup_insert_eq by done ]).
    rewrite decide_True by set_solver.
    mrun idtac. reflexivity.
  - st_simpl. split_and!; try done.
    + by rewrite list_insert_insert_eq, <- Hq.
    + set_solver.
    + set_solver.
    + by rewrite <- !app_assoc.
Qed.

(** X3. When the spawn raises, the spec is gone from the plan all the same and
    the status names its channel qualifier; the pid of the status is the one
    it had. *)
Theorem launch_failure_consumes_spec st loc s it spec rest e :
  heap st !! loc = Some s →
  st_process_queue s = Some it →
  iters st !! it = Some (spec :: rest) →
  (∀ fdmap, spawn (ps_ki spec) fdmap = raise e) →
  ∃ st',
    _launch loc st = (inl e, st')
    ∧ heap st' = <[loc := set_channel (Some (ps_xqual spec)) s]> (heap st)
    ∧ iters st' = <[it := rest]> (iters st)
    ∧ spawned (trace st') = spawned (trace st).
Proof.
  intros Hs Hq Hit Hspawn.
  assert (fresh (fds st) ∉ fds st) as Hr by apply is_fresh.
  assert (fresh ({[fresh (fds st)]} ∪ fds st) ∉ {[fresh (fds st)]} ∪ fds st)
    as Hw by apply is_fresh.
  eexists. split.
  - unfold _launch.
    mrun ltac:(first [ rewrite Hs | rewrite Hq | rewrite Hit | rewrite Hspawn ]).
    rewrite decide_True by set_solver.
    mrun idtac.
    rewrite decide_True by set_solver.
    reflexivity.
  - assert (∀ t t', spawned (t ++ t') = spawned t ++ spawned t') as Happ.
    { induction t as [|[] t IH]; intros t'; cbn [app spawned]; try done.
      destruct r; [done|]. by rewrite IH. }
    st_simpl. split_and!.
    + by rewrite <- Hq.
    + done.
    + rewrite !Happ. cbn [spawned]. by rewrite !app_nil_r.
Qed.

End LaunchFacts.

(** ** More on frames *)

Lemma total_foldl_update (l : list (string * Qc * Qc)) (m : Metrics.t) (f : string) :
  Metrics.total (foldl (λ m '(n, u, c), Metrics.update n u c m) m l) f =
  Metrics.total m f
  + foldr (λ '(n, u, _) acc, (if decide (n = f) then u else 0) + acc) 0 l.
Proof.
  revert m. induction l as [|[[n u] c] l IH]; intros m; cbn [foldl foldr].
  - ring.
  - rewrite IH, MetricsFacts.total_update. case_decide; ring.
Qed.

(** A metrics report adds its time to [duration] and, for every name that
    [zip] pairs with a unit and a count, the unit to the field of that name;
    names beyond the shortest of the three lists are left out. *)
Theorem report_total (data : Data) (m : Metrics.t) (f : string) :
  Metrics.total (ingest_metrics data m) f = Metrics.total m f + report_delta data f.
Proof.
  destruct data as [r|]; cbn [ingest_metrics report_delta].
  - rewrite total_foldl_update, MetricsFacts.total_update. case_decide; ring.
  - ring.
Qed.

(** What a frame adds to the total of a field is the same for every
    [Metrics]: the values of its report, and for [executing] one less for a
    stop and one more for a start. *)
Theorem frame_total (msg : Message) (m : Metrics.t) (f : string) :
  Metrics.total (frame_metrics msg m) f =
  Metrics.total m f + report_delta (msg_data msg) f + gauge_delta (msg_symbol msg) f.
Proof.
  unfold frame_metrics, gauge_delta.
  repeat case_decide; rewrite ?MetricsFacts.total_update, ?report_total;
    repeat case_decide; try congruence; ring.
Qed.

Section FrameFacts.
Context {QS : Type}.
Implicit Types st : State QS.

Lemma handle_frame_other_run lid loc channel msg st s tx :
  heap st !! loc = Some s →
  st_transactions s = Some tx →
  msg_symbol msg ≠ "transaction-stopped" →
  handle_frame lid loc (channel, msg) st =
  (inr tt,
   upd_heap (λ h, <[loc := set_transactions
                             (<[channel := default [] (tx !! channel) ++ [msg]]> tx) s]> h)
     (upd_mtotals (frame_metrics msg)
        (upd_monitors (on_lane lid (frame_metrics msg)) st))).
Proof.
  intros Hs Htx Hsym. unfold handle_frame, frame_metrics. cbv zeta.
  destruct (decide (msg_symbol msg = "transaction-stopped")) as [?|_]; [done|].
  mstep (status_key_run _ _ _ _ _ Hs Htx).
  rewrite bind_run. erewrite write_status_run by exact Hs. cbv beta iota.
  rewrite bind_run, ingest_run. cbv beta iota.
  destruct (decide (msg_symbol msg = "transaction-started")) as [Hstart|Hstart].
  - rewrite update_both_run. f_equal. destruct st. st_simpl.
    by rewrite on_lane_compose.
  - cbv beta iota delta [mret ret]. done.
Qed.

(** X7. A frame that is no [transaction-stopped] is put at the end of the buffer
    of its channel and calls no trap. *)
Theorem frame_accumulates lid loc channel msg st s tx :
  heap st !! loc = Some s →
  st_transactions s = Some tx →
  msg_symbol msg ≠ "transaction-stopped" →
  ∃ st',
    handle_frame lid loc (channel, msg) st = (inr tt, st')
    ∧ heap st' = <[loc := set_transactions
                             (<[channel := default [] (tx !! channel) ++ [msg]]> tx) s]>
                   (heap st)
    ∧ trace st' = trace st
    ∧ statusd st' = statusd st ∧ available st' = available st
    ∧ queue st' = queue st ∧ fds st' = fds st ∧ iters st' = iters st.
Proof.
  intros Hs Htx Hsym. eexists. split.
  - by apply handle_frame_other_run.
  - st_simpl. done.
Qed.

(** X8. Every frame does to the metrics of its lane what it does to the
    aggregate: for each field both totals move by the same amount, that of
    [frame_total]. *)
Theorem frame_moves_lane_and_aggregate lid loc channel msg st s tx xq m :
  heap st !! loc = Some s →
  st_transactions s = Some tx →
  st_channel s = Some xq →
  monitors st !! lid = Some m →
  ∃ st' m',
    handle_frame lid loc (channel, msg) st = (inr tt, st')
    ∧ monitors st' !! lid = Some m'
    ∧ (∀ lid', lid' ≠ lid → monitors st' !! lid' = monitors st !! lid')
    ∧ ∀ f,
        Metrics.total m' f - Metrics.total m f =
        Metrics.total (mtotals st') f - Metrics.total (mtotals st) f
        ∧ Metrics.total m' f - Metrics.total m f =
          report_delta (msg_data msg) f + gauge_delta (msg_symbol msg) f.
Proof.
  intros Hs Htx Hxq Hm.
  assert (∀ x f, Metrics.total (frame_metrics msg x) f - Metrics.total x f
                 = report_delta (msg_data msg) f + gauge_delta (msg_symbol msg) f)
    as Hd by (intros x f; rewrite frame_total; ring).
  destruct (decide (msg_symbol msg = "transaction-stopped")) as [Hsym|Hsym].
  - destruct (handle_frame_stopped lid loc channel msg st s tx xq Hs Htx Hxq Hsym)
      as (st' & Hrun & _ & Hmons & Htot & _).
    assert (∀ x, Metrics.update "executing" (-1) 0 (ingest_metrics (msg_data msg) x)
                 = frame_metrics msg x) as Hfm.
    { intros x. unfold frame_metrics. by rewrite decide_True. }
    exists st', (frame_metrics msg m). split_and!; [done|..].
    + rewrite Hmons, (on_lane_lookup _ _ _ _ Hm). by rewrite Hfm.
    + intros lid' Hne. rewrite Hmons. by apply on_lane_lookup_ne.
    + intros f. rewrite Htot, Hfm, !Hd. done.
  - exists (upd_heap (λ h, <[loc := set_transactions
                             (<[channel := default [] (tx !! channel) ++ [msg]]> tx) s]> h)
             (upd_mtotals (frame_metrics msg)
                (upd_monitors (on_lane lid (frame_metrics msg)) st))),
           (frame_metrics msg m).
    split_and!.
    + by apply handle_frame_other_run.
    + st_simpl. by apply on_lane_lookup.
    + intros lid' Hne. st_simpl. by apply on_lane_lookup_ne.
    + intros f. st_simpl. rewrite !Hd. done.
Qed.

End FrameFacts.

Section TransactionFacts.
Context {QS : Type}.
Implicit Types st : State QS.

Lemma for_each_app {A : Type} (l1 l2 : list A) (body : A → M QS unit) st :
  for_each (l1 ++ l2) body st =
  match for_each l1 body st with
  | (inr _, st1) => for_each l2 body st1
  | (inl e, st1) => (inl e, st1)
  end.
Proof.
  revert st. induction l1 as [|x l1 IH]; intros st; cbn [app for_each].
  - done.
  - rewrite !bind_run. destruct (body x st) as [[e|[]] st1]; [done|]. apply IH.
Qed.

Lemma for_each_cons {A : Type} (x : A) (l : list A) (body : A → M QS unit) st :
  for_each (x :: l) body st =
  match body x st with
  | (inr _, st1) => for_each l body st1
  | (inl e, st1) => (inl e, st1)
  end.
Proof. cbn [for_each]. rewrite bind_run. by destruct (body x st) as [[?|?] ?]. Qed.

(** Frames other than [transaction-stopped] pile up on their channel in the
    order of arrival; the other channels and the trace stay as they are. *)
Lemma frames_accumulate lid loc channel msgs st s tx :
  heap st !! loc = Some s →
  st_transactions s = Some tx →
  Forall (λ msg, msg_symbol msg ≠ "transaction-stopped") msgs →
  ∃ st' s' tx',
    for_each ((λ msg, (channel, msg)) <$> msgs) (handle_frame lid loc) st
    = (inr tt, st')
    ∧ heap st' !! loc = Some s'
    ∧ st_channel s' = st_channel s
    ∧ st_transactions s' = Some tx'
    ∧ default [] (tx' !! channel) = default [] (tx !! channel) ++ msgs
    ∧ (∀ c, c ≠ channel → tx' !! c = tx !! c)
    ∧ trace st' = trace st.
Proof.
  intros Hs Htx Hall. revert st s tx Hs Htx.
  induction Hall as [|msg msgs Hsym _ IH]; intros st s tx Hs Htx.
  - exists st, s, tx. cbn [fmap list_fmap for_each]. rewrite app_nil_r.
    split_and!; done.
  - assert (loc < length (heap st))%nat as Hlt by by eapply lookup_lt_Some.
    pose proof (handle_frame_other_run lid loc channel msg st s tx Hs Htx Hsym)
      as Hrun.
    match type of Hrun with _ = (_, ?x) => set (st1 := x) in Hrun end.
    assert (heap st1 = <[loc := set_transactions
                                  (<[channel := default [] (tx !! channel) ++ [msg]]> tx) s]>
                         (heap st)) as Hheap by done.
    assert (trace st1 = trace st) as Htrace by done.
    clearbody st1.
    destruct (IH st1
                (set_transactions
                   (<[channel := default [] (tx !! channel) ++ [msg]]> tx) s)
                (<[channel := default [] (tx !! channel) ++ [msg]]> tx))
      as (st' & s' & tx' & Hrun' & Hs' & Hch & Htx' & Hbuf & Hother & Htrace').
    { rewrite Hheap. by apply list_lookup_insert_eq. }
    { done. }
    exists st', s', tx'. rewrite fmap_cons, for_each_cons, Hrun.
    split_and!; try done.
    + rewrite Hbuf, lookup_insert_eq. cbn [default id]. by rewrite <- app_assoc.
    + intros c Hc. rewrite Hother by done. by rewrite lookup_insert_ne.
    + by rewrite Htrace'.
Qed.

(** X9. A transaction on one channel: frames that are no stop, the first being
    [first], then a stop, on a channel that had nothing accumulated. The trap
    is called once, at the stop, with the stop frame, the first frame, the
    frames in between in the order of arrival and the channel qualifier; the
    buffer of the channel is gone afterwards. *)
Theorem transaction_frames lid loc channel first mids stop st s tx xq :
  heap st !! loc = Some s →
  st_transactions s = Some tx →
  st_channel s = Some xq →
  default [] (tx !! channel) = [] →
  Forall (λ msg, msg_symbol msg ≠ "transaction-stopped") (first :: mids) →
  msg_symbol stop = "transaction-stopped" →
  ∃ st' s',
    for_each ((λ msg, (channel, msg)) <$> (first :: mids) ++ [stop])
             (handle_frame lid loc) st = (inr tt, st')
    ∧ trace st' = trace st ++ [EEox lid stop first mids xq]
    ∧ heap st' !! loc = Some s'
    ∧ st_transactions s' = Some (delete channel tx).
Proof.
  intros Hs Htx Hxq Hempty Hall Hstop.
  destruct (frames_accumulate lid loc channel (first :: mids) st s tx Hs Htx Hall)
    as (st1 & s1 & tx1 & Hrun1 & Hs1 & Hch1 & Htx1 & Hbuf & Hother & Htrace1).
  rewrite Hempty in Hbuf. cbn [app] in Hbuf.
  assert (st_channel s1 = Some xq) as Hxq1 by by rewrite Hch1.
  destruct (handle_frame_stopped lid loc channel stop st1 s1 tx1 xq
              Hs1 Htx1 Hxq1 Hstop)
    as (st' & Hrun & Hheap & _ & _ & Htrace).
  exists st', (set_transactions (delete channel tx1) s1).
  rewrite fmap_app, for_each_app, Hrun1.
  change ((λ msg, (channel, msg)) <$> [stop]) with [(channel, stop)].
  rewrite for_each_cons, Hrun.
  split_and!; [done|..].
  - by rewrite Htrace, Hbuf, Htrace1.
  - rewrite Hheap. apply list_lookup_insert_eq. by eapply lookup_lt_Some.
  - cbn [set_transactions st_transactions]. f_equal. apply map_eq. intros c.
    destruct (decide (c = channel)) as [->|Hc].
    + by rewrite !lookup_delete_eq.
    + rewrite !lookup_delete_ne by done. by apply Hother.
Qed.

End TransactionFacts.

(** ** More on lanes *)

Lemma dict_get_del {V : Type} (k : nat) (d : list (nat * V)) :
  NoDup d.*1 → dict_get k (dict_del k d) = None.
Proof.
  induction d as [|[k' v] d IH]; csimpl; [done|].
  intros [Hk' Hd]%NoDup_cons. cbn [dict_del dict_get]. case_decide as Hk.
  - subst k'. clear IH. induction d as [|[k'' v''] d IH]; [done|].
    csimpl in *. apply not_elem_of_cons in Hk' as [Hne Hk'].
    apply NoDup_cons in Hd as [_ Hd].
    cbn [dict_get]. rewrite decide_False by done. by apply IH.
  - cbn [dict_get]. rewrite decide_False by done. by apply IH.
Qed.

Lemma dict_get_del_ne {V : Type} (k k' : nat) (d : list (nat * V)) :
  k ≠ k' → dict_get k' (dict_del k d) = dict_get k' d.
Proof.
  intros Hne. induction d as [|[k'' v] d IH]; [done|].
  cbn [dict_del dict_get]. case_decide as Hk.
  - subst k''. by rewrite decide_False.
  - cbn [dict_get]. case_decide; [done|]. apply IH.
Qed.

Lemma insert_snoc {A : Type} (l : list A) (x y : A) :
  <[length l := x]> (l ++ [y]) = l ++ [x].
Proof.
  replace (length l) with (length l + 0)%nat by lia. by rewrite insert_app_r.
Qed.

Section LaneFacts.
Context {QS : Type}.
Variable env : Env QS.
Variable title : string.
Implicit Types st : State QS.

(** X4. A work item whose plan gives a process spec takes the first available
    lane: the lane leaves the pool, [statusd] gets a new status with the
    source, the rest of the plan, the channel qualifier and the pid, the
    metrics of the lane are cleared, and the monitor is given its title,
    connected to the read end of the pipe and installed, in this order. *)
Theorem take_in_success ident lid rest m spec more pid st :
  available st = lid :: rest →
  plan env ident = spec :: more →
  monitors st !! lid = Some m →
  (∀ fdmap, spawn (ps_ki spec) fdmap = ret pid) →
  let rfd := fresh (fds st) in
  let wfd := fresh ({[rfd]} ∪ fds st) in
  ∃ st',
    take_in env ident st = (inr tt, st')
    ∧ available st' = rest
    ∧ statusd st' = dict_set lid (length (heap st)) (statusd st)
    ∧ heap st' = heap st ++ [MkStatus (Some (Some (ps_xqual spec))) (Some ident)
                                      (Some (length (iters st))) (Some ∅)
                                      (Some pid)]
    ∧ iters st' = iters st ++ [more]
    ∧ monitors st' = on_lane lid Metrics.clear (monitors st)
    ∧ fds st' = {[rfd]} ∪ fds st
    ∧ queue st' = queue st
    ∧ trace st' = trace st ++ [EPipe rfd wfd;
                               ESpawn [(0, 0); (wfd, 1); (2, 2)]%nat (ret pid);
                               EClose wfd;
                               ETitle (Monitor lid) (ps_category spec)
                                      (ps_dimensions spec);
                               EConnect lid rfd;
                               EInstall (Monitor lid)].
Proof.
  intros Hav Hplan Hm Hspawn rfd wfd.
  assert (rfd ∉ fds st) as Hr by apply is_fresh.
  assert (wfd ∉ {[rfd]} ∪ fds st) as Hw by apply is_fresh.
  subst rfd wfd. eexists. split.
  { unfold take_in, _launch. rewrite Hplan.
    mrun ltac:(first
      [ rewrite Hav | rewrite Hm | rewrite Hspawn
      | rewrite list_lookup_middle by done
      | rewrite length_app
      | rewrite bool_decide_eq_true_2 by done
      | rewrite decide_True by set_solver ]).
    reflexivity. }
  st_simpl. rewrite !insert_snoc, list_lookup_middle by done.
  st_simpl. rewrite !insert_snoc.
  split_and!; try done.
  - set_solver.
  - by rewrite <- !app_assoc.
Qed.

(** Without an available lane nothing is taken in: [popleft] raises
    [IndexError] before the plan is asked. *)
Theorem take_in_no_lane ident st :
  available st = [] → take_in env ident st = (inl IndexError, st).
Proof.
  intros Hav. unfold take_in. mrun ltac:(rewrite Hav). by destruct st.
Qed.

(** X5. The end of a process whose plan has nothing left: the process is reaped,
    the trap [eop] is called, the work item is reported finished, the status
    is taken out of [statusd] and emptied, the lane goes to the end of the
    pool and the summary is installed; nothing is spawned or connected. *)
Theorem end_of_stream_finishes (lid : Lane) (loc : Loc) s tx source pid xq
    (it : IterRef) m st :
  dict_get lid (statusd st) = Some loc →
  heap st !! loc = Some s →
  st_transactions s = Some tx →
  st_source s = Some source →
  st_pid s = Some pid →
  st_channel s = Some xq →
  st_process_queue s = Some it →
  iters st !! it = Some [] →
  monitors st !! lid = Some m →
  NoDup (statusd st).*1 →
  ∃ st',
    handle_lane env title (lid, None) st = (inr tt, st')
    ∧ statusd st' = dict_del lid (statusd st)
    ∧ dict_get lid (statusd st') = None
    ∧ available st' = available st ++ [lid]
    ∧ heap st' = <[loc := status_cleared]> (heap st)
    ∧ monitors st' = on_lane lid Metrics.clear (monitors st)
    ∧ queue st' = queue_finish env source (queue st)
    ∧ fds st' = fds st
    ∧ trace st' =
        trace st ++ [EReap pid; EEop lid xq pid (reap env pid); EFinish source;
                     ETitle Summary title
                       [join_status (queue_status env
                                       (queue_finish env source (queue st)))];
                     EInstall Summary].
Proof.
  intros Hsd Hs Htx Hsrc Hpid Hxq Hq Hit Hm Hnd.
  eexists. split.
  { unfold handle_lane, _launch, finish, summary_title.
    mrun ltac:(first
      [ rewrite Hsd | rewrite Hs | rewrite Htx | rewrite Hsrc | rewrite Hpid
      | rewrite Hxq | rewrite Hq | rewrite Hit | rewrite Hm
      | rewrite bool_decide_eq_true_2 by done ]).
    reflexivity. }
  st_simpl. split_and!; try done.
  - by apply dict_get_del.
  - by rewrite <- !app_assoc.
Qed.

(** X6. The end of a process whose plan goes on: the process is reaped, the trap
    [eop] is called, the next process is spawned for the same status and the
    lane connected to it; the lane stays out of the pool and in [statusd],
    its metrics are cleared and no work item is reported finished. *)
Theorem end_of_stream_chains (lid : Lane) (loc : Loc) s tx source pid xq
    (it : IterRef) spec rest pid' m st :
  dict_get lid (statusd st) = Some loc →
  heap st !! loc = Some s →
  st_transactions s = Some tx →
  st_source s = Some source →
  st_pid s = Some pid →
  st_channel s = Some xq →
  st_process_queue s = Some it →
  iters st !! it = Some (spec :: rest) →
  monitors st !! lid = Some m →
  (∀ fdmap, spawn (ps_ki spec) fdmap = ret pid') →
  let rfd := fresh (fds st) in
  let wfd := fresh ({[rfd]} ∪ fds st) in
  ∃ st',
    handle_lane env title (lid, None) st = (inr tt, st')
    ∧ statusd st' = statusd st
    ∧ available st' = available st
    ∧ heap st' = <[loc := set_pid pid' (set_channel (Some (ps_xqual spec)) s)]> (heap st)
    ∧ iters st' = <[it := rest]> (iters st)
    ∧ monitors st' = on_lane lid Metrics.clear (monitors st)
    ∧ queue st' = queue st
    ∧ trace st' =
        trace st ++ [EReap pid; EEop lid xq pid (reap env pid);
                     EPipe rfd wfd;
                     ESpawn [(0, 0); (wfd, 1); (2, 2)]%nat (ret pid');
                     EClose wfd;
                     EConnect lid rfd;
                     ETitle (Monitor lid) (ps_category spec) (ps_dimensions spec);
                     EInstall (Monitor lid)].
Proof.
  intros Hsd Hs Htx Hsrc Hpid Hxq Hq Hit Hm Hspawn rfd wfd.
  assert (rfd ∉ fds st) as Hr by apply is_fresh.
  assert (wfd ∉ {[rfd]} ∪ fds st) as Hw by apply is_fresh.
  assert (loc < length (heap st))%nat as Hlt by by eapply lookup_lt_Some.
  subst rfd wfd. eexists. split.
  { unfold handle_lane, _launch.
    mrun ltac:(first
      [ rewrite Hsd | rewrite Hs | rewrite Htx | rewrite Hsrc | rewrite Hpid
      | rewrite Hxq | rewrite Hq | rewrite Hit | rewrite Hm | rewrite Hspawn
      | rewrite list_lookup_insert_eq by done
      | rewrite decide_True by set_solver ]).
    reflexivity. }
  st_simpl. split_and!; try done.
  - by rewrite list_insert_insert_eq, Hsrc, Hq, Htx.
  - by rewrite <- !app_assoc.
Qed.

End LaneFacts.

(** ** More on the [finally] block *)

Lemma killed_app (t t' : list Event) : killed (t ++ t') = killed t ++ killed t'.
Proof.
  induction t as [|[] t IH]; cbn [app killed]; try done. by rewrite IH.
Qed.

Lemma reaped_app (t t' : list Event) : reaped (t ++ t') = reaped t ++ reaped t'.
Proof.
  induction t as [|[] t IH]; cbn [app reaped]; try done. by rewrite IH.
Qed.

Section CleanupMore.
Context {QS : Type}.
Variable env : Env QS.
Implicit Types st : State QS.

Lemma kill_lane_run (lid : Lane) (cur : Loc) sc pc st :
  status st = Some cur →
  heap st !! cur = Some sc →
  st_pid sc = Some pc →
  (∀ loc, dict_get lid (statusd st) = Some loc → is_Some (heap st !! loc)) →
  kill_lane env lid st =
  (inr tt, upd_trace (λ t, t ++ kill_events env pc (lane_pid st lid)) st).
Proof.
  intros Hcur Hsc Hpc Halloc. unfold lane_pid.
  destruct (dict_get lid (statusd st)) as [loc|] eqn:Hsd; cbn [mbind option_bind].
  - destruct (Halloc loc eq_refl) as [s Hs]. rewrite Hs. cbn [mbind option_bind].
    destruct (st_pid s) as [pid|] eqn:Hpid; cbn [kill_events].
    + destruct (killpg env pid) eqn:Hk.
      * unfold kill_lane.
        mrun ltac:(first [ rewrite Hsd | rewrite Hs | rewrite Hpid | rewrite Hk
                         | rewrite Hcur | rewrite Hsc | rewrite Hpc ]).
        by rewrite <- app_assoc.
      * unfold kill_lane.
        mrun ltac:(first [ rewrite Hsd | rewrite Hs | rewrite Hpid | rewrite Hk
                         | rewrite bool_decide_eq_true_2 by auto ]).
        done.
    + unfold kill_lane.
      mrun ltac:(first [ rewrite Hsd | rewrite Hs | rewrite Hpid
                       | rewrite bool_decide_eq_true_2 by auto ]).
      rewrite app_nil_r. by destruct st.
  - unfold kill_lane.
    mrun ltac:(first [ rewrite Hsd | rewrite bool_decide_eq_true_2 by auto ]).
    cbn [kill_events]. rewrite app_nil_r. by destruct st.
Qed.

Lemma kill_lanes_run (lanes : list Lane) (cur : Loc) sc pc st :
  status st = Some cur →
  heap st !! cur = Some sc →
  st_pid sc = Some pc →
  (∀ lid loc, dict_get lid (statusd st) = Some loc → is_Some (heap st !! loc)) →
  for_each lanes (kill_lane env) st =
  (inr tt,
   upd_trace (λ t, t ++ concat ((λ lid, kill_events env pc (lane_pid st lid)) <$> lanes))
             st).
Proof.
  intros Hcur Hsc Hpc Halloc. revert st Hcur Hsc Halloc.
  induction lanes as [|lid lanes IH]; intros st Hcur Hsc Halloc.
  - cbn [for_each fmap list_fmap concat]. unfold mret, ret. st_simpl.
    rewrite app_nil_r. by destruct st.
  - rewrite for_each_cons.
    rewrite (kill_lane_run lid cur sc pc st Hcur Hsc Hpc (Halloc lid)).
    rewrite IH by done. csimpl. st_simpl. unfold lane_pid. st_simpl.
    by rewrite <- app_assoc.
Qed.

(** X11. When [status], the record that the loop used last, has a pid, the
    [finally] block gets through: the frame array is released, then every
    lane of [statusd] that has a pid is sent the kill signal, in the order of
    [statusd]; a lane without a pid and a process group that is gone are
    passed over. Each delivered signal is followed by a reap of the pid of
    [status], whichever lane the signal was for. *)
Theorem cleanup_kills_tracked (cur : Loc) sc pc st :
  status st = Some cur →
  heap st !! cur = Some sc →
  st_pid sc = Some pc →
  (∀ lid loc, dict_get lid (statusd st) = Some loc → is_Some (heap st !! loc)) →
  ∃ st',
    cleanup env st = (inr tt, st')
    ∧ trace st' =
        trace st ++ EIoaExit
        :: concat ((λ lid, kill_events env pc (lane_pid st lid)) <$> (statusd st).*1)
    ∧ killed (trace st') = killed (trace st) ++ omap (lane_pid st) (statusd st).*1
    ∧ ∃ n, reaped (trace st') = reaped (trace st) ++ replicate n pc.
Proof.
  intros Hcur Hsc Hpc Halloc.
  assert (cleanup env st =
          (inr tt,
           upd_trace (λ t, t ++ EIoaExit
                          :: concat ((λ lid, kill_events env pc (lane_pid st lid))
                                       <$> (statusd st).*1)) st)) as Hrun.
  { unfold cleanup. do 2 mnext.
    rewrite (kill_lanes_run _ cur sc pc) by done.
    st_simpl. unfold lane_pid. st_simpl. by rewrite <- app_assoc. }
  eexists. split; [exact Hrun|]. st_simpl. split; [done|].
  generalize ((statusd st).*1). intros lanes.
  rewrite killed_app, reaped_app. cbn [killed reaped].
  split.
  - f_equal. induction lanes as [|lid lanes IH]; [done|]. csimpl.
    rewrite killed_app, IH.
    destruct (lane_pid st lid) as [pid|]; cbn [kill_events]; [|done].
    by destruct (killpg env pid).
  - induction lanes as [|lid lanes [n IH]]; [by exists 0%nat|]. csimpl.
    apply app_inv_head in IH. rewrite reaped_app, IH.
    destruct (lane_pid st lid) as [pid|]; cbn [kill_events]; [|by exists n].
    destruct (killpg env pid); [by exists (S n)|by exists n].
Qed.

End CleanupMore.

(** ** More on the loop *)

Section LoopFacts.
Context {QS : Type}.
Variable env : Env QS.
Variable title : string.
Variable window : Qc.
Implicit Types st : State QS.

(** X14. The time handed to [commit] is never zero. *)
Theorem elapsed_never_zero (next_time last : Z) :
  elapsed_of env next_time last ≠ 0.
Proof.
  unfold elapsed_of.
  set (k := if decide (_ = 0%Z) then 1%Z else _).
  assert (k ≠ 0%Z) as Hk by (subst k; case_decide; done).
  intros Hz.
  assert (Qc_of_Z k = Qc_of_Z k / Qc_of_Z 1000 * Qc_of_Z 1000) as Hmul.
  { field. rewrite <- Z2Qc_inj_0. by intros ?%Z2Qc_inj. }
  rewrite Hz, Qcmult_0_l, <- Z2Qc_inj_0 in Hmul.
  by apply Z2Qc_inj in Hmul.
Qed.

(** While no lane is available and the frame array yields nothing, a turn
    does not ask the queue at all: it is the metrics tick alone, and the loop
    goes on. *)
Lemma turn_busy_silent st :
  available st = [] →
  ioa_poll env (passes st) = [] →
  turn env title window st =
  (inr true, after_tick env title window (upd_passes S st)).
Proof.
  intros Hav Hpoll. unfold turn.
  mrun ltac:(first [ rewrite Hav | rewrite Hpoll | rewrite tick_run
                   | progress cbn [for_each] ]).
  done.
Qed.

Lemma loop_busy_silent turns st :
  available st = [] →
  (∀ n, ioa_poll env n = []) →
  ∃ st', loop env title window turns st = (Running, st')
         ∧ available st' = [] ∧ queue st' = queue st ∧ statusd st' = statusd st
         ∧ spawned (trace st') = spawned (trace st).
Proof.
  intros Hav Hpoll. revert st Hav.
  induction turns as [|n IH]; intros st Hav.
  - by exists st.
  - cbn [loop]. rewrite turn_busy_silent by done.
    destruct (IH (after_tick env title window (upd_passes S st)))
      as (st' & Hrun & Hav' & Hq & Hsd & Hsp).
    { unfold after_tick. by st_simpl. }
    exists st'. rewrite Hrun. split_and!; try done.
    rewrite Hsp. unfold after_tick. st_simpl.
    assert (∀ t t', spawned (t ++ t') = spawned t ++ spawned t') as Happ.
    { induction t as [|[] t IHt]; intros t'; cbn [app spawned]; try done.
      destruct r; [done|]. by rewrite IHt. }
    assert (∀ i step ms, spawned (tick_updates i step ms) = []) as Hupd.
    { intros i step ms. revert i. induction ms as [|m ms IHm]; intros i; [done|].
      cbn [tick_updates spawned]. apply IHm. }
    rewrite !Happ, Hupd. cbn [spawned]. by rewrite app_nil_r.
Qed.

(** X15. Without monitors there is never a lane available: [dispatch] asks the
    queue for nothing, spawns nothing and, with a silent frame array, does
    not return, whatever the queue holds. *)
Theorem no_monitors_never_returns (turns : nat) (summary : Metrics.t) (q0 : QS) :
  (∀ n, ioa_poll env n = []) →
  let r := dispatch env title window turns [] summary q0 in
  r.1 = Running ∧ queue r.2 = q0 ∧ statusd r.2 = [] ∧ spawned (trace r.2) = [].
Proof.
  intros Hpoll.
  destruct (loop_busy_silent turns (start env title [] summary q0))
    as (st' & Hrun & _ & Hq & Hsd & Hsp); [done|done|].
  cbv zeta. unfold dispatch. rewrite Hrun. cbn [fst snd].
  by rewrite Hq, Hsd, Hsp.
Qed.

(** X16. With a lane available, a queue that gives nothing and is terminal ends
    the loop in its first turn, before any poll or tick: the frame array is
    entered and released, the control flushed once, nothing is spawned and no
    signal is sent. *)
Theorem dispatch_empty_queue (turns : nat) (m : Metrics.t) (mons : list Metrics.t)
    (summary : Metrics.t) (q0 q1 : QS) :
  queue_take env (S (length mons)) q0 = ([], q1) →
  queue_terminal env q1 = true →
  ∃ st',
    dispatch env title window (S turns) (m :: mons) summary q0 = (Returned, st')
    ∧ trace st' = [ETitle Summary title ["*"]; EIoaEnter; EFlush; EIoaExit]
    ∧ queue st' = q1
    ∧ monitors st' = m :: mons
    ∧ clock_reads st' = 1%nat.
Proof.
  intros Htake Hterm. eexists. split.
  { unfold dispatch. cbn [loop]. unfold turn, start, admission.
    cbn [length seq].
    mrun ltac:(first [ rewrite length_seq | rewrite Htake | rewrite Hterm
                     | progress cbn [for_each length] ]).
    unfold cleanup.
    mrun ltac:(progress cbn [for_each fmap list_fmap]).
    reflexivity. }
  st_simpl. done.
Qed.

End LoopFacts.

(** ** More on the backfill *)

Section BackfillFacts.
Context {QS : Type}.
Implicit Types st : State QS.

(** X17. The backfill with one lane available. The status of the first source is
    copied and the next spec of its plan spawned on the available lane: the
    copy has the source and the plan iterator of the original, so the spec is
    gone from the plan of the original as well, while the original status
    itself stays as it is. The metrics of the lane are not cleared. With the
    pool empty the other sources are not looked at. *)
Theorem backfill_shares_plan (lid xlid : Lane) (others : list Lane) (loc0 : Loc)
    s (it : IterRef) spec rest pid mx st :
  available st = [xlid] →
  dict_get lid (statusd st) = Some loc0 →
  heap st !! loc0 = Some s →
  st_process_queue s = Some it →
  iters st !! it = Some (spec :: rest) →
  monitors st !! xlid = Some mx →
  (∀ fdmap, spawn (ps_ki spec) fdmap = ret pid) →
  let rfd := fresh (fds st) in
  let wfd := fresh ({[rfd]} ∪ fds st) in
  ∃ st',
    backfill (lid :: others) st = (inr tt, st')
    ∧ available st' = []
    ∧ statusd st' = dict_set xlid (length (heap st)) (statusd st)
    ∧ heap st' = heap st ++ [MkStatus (Some (Some (ps_xqual spec))) (st_source s)
                                      (Some it) (Some ∅) (Some pid)]
    ∧ heap st' !! loc0 = Some s
    ∧ iters st' = <[it := rest]> (iters st)
    ∧ monitors st' = monitors st
    ∧ queue st' = queue st
    ∧ trace st' = trace st ++ [EPipe rfd wfd;
                               ESpawn [(0, 0); (wfd, 1); (2, 2)]%nat (ret pid);
                               EClose wfd;
                               ETitle (Monitor xlid) (ps_category spec)
                                      (ps_dimensions spec);
                               EConnect xlid rfd;
                               EInstall (Monitor xlid)].
Proof.
  intros Hav Hsd Hs Hq Hit Hm Hspawn rfd wfd.
  assert (rfd ∉ fds st) as Hr by apply is_fresh.
  assert (wfd ∉ {[rfd]} ∪ fds st) as Hw by apply is_fresh.
  assert (loc0 < length (heap st))%nat as Hlt by by eapply lookup_lt_Some.
  subst rfd wfd. eexists. split.
  { cbn [backfill]. mnext. rewrite Hav. cbn [length backfill_lane].
    unfold _launch.
    mrun ltac:(first
      [ rewrite Hav | rewrite Hsd | rewrite Hs | rewrite Hq | rewrite Hit
      | rewrite Hm | rewrite Hspawn
      | rewrite list_lookup_middle by done
      | rewrite insert_snoc
      | rewrite decide_True by set_solver ]).
    reflexivity. }
  st_simpl. split_and!; try done.
  - by rewrite lookup_app_l.
  - by rewrite <- !app_assoc.
Qed.

(** X18. The backfill when the plans of all sources are exhausted: nothing is
    spawned and the lanes stay available; what is left is one copy of the
    status of each source, and [status] is the last copy, which [statusd]
    does not hold. *)
Theorem backfill_exhausted (sources : list Lane) st :
  available st ≠ [] →
  Forall (λ lid, ∃ loc s it,
            dict_get lid (statusd st) = Some loc
            ∧ heap st !! loc = Some s
            ∧ st_process_queue s = Some it
            ∧ iters st !! it = Some []) sources →
  ∃ st' copies,
    backfill sources st = (inr tt, st')
    ∧ heap st' = heap st ++ copies
    ∧ length copies = length sources
    ∧ (sources ≠ [] → status st' = Some (length (heap st) + length sources - 1)%nat)
    ∧ statusd st' = statusd st
    ∧ available st' = available st
    ∧ iters st' = iters st
    ∧ fds st' = fds st
    ∧ queue st' = queue st
    ∧ trace st' = trace st.
Proof.
  intros Hav Hall. revert st Hav Hall.
  induction sources as [|lid sources IH]; intros st Hav Hall.
  - exists st, []. rewrite app_nil_r. by split_and!.
  - apply Forall_cons in Hall as [(loc & s & it & Hsd & Hs & Hq & Hit) Hall].
    destruct (available st) as [|x av] eqn:Hx; [done|].
    set (st1 := upd_status (λ _, Some (length (heap st)))
                  (upd_heap (λ h, h ++ [s]) st)).
    assert (backfill (lid :: sources) st = backfill sources st1) as ->.
    { cbn [backfill]. mnext. rewrite Hx. cbn [length backfill_lane].
      unfold _launch.
      mrun ltac:(first
        [ rewrite Hx | rewrite Hsd | rewrite Hs | rewrite Hq | rewrite Hit
        | rewrite list_lookup_middle by done
        | rewrite lookup_app_l by (by eapply lookup_lt_Some)
        | rewrite bool_decide_eq_true_2 by done ]).
      subst st1. st_simpl. by rewrite Hx. }
    destruct (IH st1) as (st' & copies & Hrun & Hheap & Hlen & Hstatus & Hrest).
    { subst st1. st_simpl. by rewrite Hx. }
    { subst st1. st_simpl. eapply Forall_impl; [exact Hall|].
      intros l (loc' & s' & it' & ? & Hs' & ? & ?). exists loc', s', it'.
      split_and!; try done. rewrite lookup_app_l; [done|]. by eapply lookup_lt_Some. }
    exists st', (s :: copies). rewrite Hrun. subst st1.
    cbn [upd_status upd_heap heap iters fds statusd status available queue trace]
      in Hheap, Hstatus, Hrest.
    destruct Hrest as (? & ? & ? & ? & ? & ?).
    split_and!; try done.
    + by rewrite Hheap, <- app_assoc.
    + cbn [length]. by rewrite Hlen.
    + intros _. destruct sources as [|lid' sources'].
      * cbn [backfill] in Hrun. injection Hrun as <-. st_simpl. f_equal.
        cbn [length]. lia.
      * rewrite Hstatus by done. rewrite length_app. cbn [length]. f_equal. lia.
    + congruence.
Qed.

End BackfillFacts.

(** ** The further properties at concrete inputs *)

Lemma launch_exhausted_witness :
  _launch 0%nat (Scenario.lane_state (Scenario.running ∅) [[]] [])
  = (inr None, Scenario.lane_state (Scenario.running ∅) [[]] []).
Proof.
  apply (launch_exhausted (Scenario.lane_state (Scenario.running ∅) [[]] [])
           0%nat (Scenario.running ∅) 0%nat); reflexivity.
Defined.

Lemma launch_success_witness :
  ∃ st',
    _launch 0%nat (Scenario.lane_state (Scenario.running ∅)
                     [[Scenario.ok_spec 101%nat]] [])
    = (inr (Some (4%nat, "category", ["dimension"])), st')
    ∧ st_pid <$> heap st' = [Some 101%nat]
    ∧ iters st' = [[]].
Proof.
  destruct (launch_success
              (Scenario.lane_state (Scenario.running ∅) [[Scenario.ok_spec 101%nat]] [])
              0%nat (Scenario.running ∅) 0%nat (Scenario.ok_spec 101%nat) [] 101%nat)
    as (st' & Hrun & Hheap & Hiters & _);
    [reflexivity | reflexivity | reflexivity | intros; reflexivity |].
  exists st'. split; [exact Hrun|]. rewrite Hheap, Hiters. split; reflexivity.
Defined.

Lemma launch_failure_consumes_spec_witness :
  ∃ st',
    _launch 0%nat Scenario.launch_state = (inl OSError, st')
    ∧ st_channel <$> heap st' = [Some (Some "xqual")]
    ∧ iters st' = [[]].
Proof.
  destruct (launch_failure_consumes_spec Scenario.launch_state 0%nat
              (MkStatus (Some None) (Some "c") (Some 0%nat) (Some ∅) None)
              0%nat Scenario.bad_spec [] OSError)
    as (st' & Hrun & Hheap & Hiters & _);
    [reflexivity | reflexivity | reflexivity | intros; reflexivity |].
  exists st'. split; [exact Hrun|]. rewrite Hheap, Hiters. split; reflexivity.
Defined.

Lemma frame_accumulates_witness :
  ∃ st',
    handle_frame 0%nat 0%nat ("c", Scenario.report_msg)
      (Scenario.frame_state Scenario.open_tx) = (inr tt, st')
    ∧ (heap st' !! 0%nat) ≫= st_transactions
      = Some {["c" := [Scenario.started; Scenario.report_msg]]}
    ∧ trace st' = [].
Proof.
  destruct (frame_accumulates 0%nat 0%nat "c" Scenario.report_msg
              (Scenario.frame_state Scenario.open_tx)
              (Scenario.running Scenario.open_tx) Scenario.open_tx)
    as (st' & Hrun & Hheap & Htrace & _); [reflexivity | reflexivity | done |].
  exists st'. split; [exact Hrun|]. rewrite Hheap, Htrace. split; [|reflexivity].
  apply (bool_decide_unpack _). vm_compute. exact I.
Defined.

Lemma frame_moves_lane_and_aggregate_witness :
  ∃ st' m',
    handle_frame 0%nat 0%nat ("c", Scenario.report_msg) (Scenario.frame_state ∅)
    = (inr tt, st')
    ∧ monitors st' !! 0%nat = Some m'
    ∧ Metrics.total m' "k" - Metrics.total Scenario.m8 "k" = Qc_of_Z 3
    ∧ Metrics.total (mtotals st') "k" - Metrics.total Scenario.m8 "k" = Qc_of_Z 3.
Proof.
  destruct (frame_moves_lane_and_aggregate 0%nat 0%nat "c" Scenario.report_msg
              (Scenario.frame_state ∅) (Scenario.running ∅) ∅ (Some "xqual")
              Scenario.m8)
    as (st' & m' & Hrun & Hm' & _ & Hd);
    [reflexivity | reflexivity | reflexivity | reflexivity |].
  exists st', m'. split; [exact Hrun|]. split; [exact Hm'|].
  destruct (Hd "k") as [Hsame Hk].
  assert (report_delta (msg_data Scenario.report_msg) "k"
          + gauge_delta (msg_symbol Scenario.report_msg) "k" = Qc_of_Z 3) as Hv.
  { apply (bool_decide_unpack _). vm_compute. exact I. }
  split; [exact (eq_trans Hk Hv)|].
  exact (eq_trans (eq_sym Hsame) (eq_trans Hk Hv)).
Defined.

Lemma transaction_frames_witness :
  ∃ st' s',
    for_each ((λ msg, ("c", msg)) <$>
                (Scenario.started :: [Scenario.report_msg]) ++ [Scenario.stopped])
             (handle_frame 0%nat 0%nat) (Scenario.frame_state ∅) = (inr tt, st')
    ∧ trace st' = trace (Scenario.frame_state ∅)
                  ++ [EEox 0%nat Scenario.stopped Scenario.started
                           [Scenario.report_msg] (Some "xqual")]
    ∧ heap st' !! 0%nat = Some s'
    ∧ st_transactions s' = Some (delete "c" ∅).
Proof.
  apply (transaction_frames 0%nat 0%nat "c" Scenario.started
           [Scenario.report_msg] Scenario.stopped (Scenario.frame_state ∅)
           (Scenario.running ∅) ∅ (Some "xqual"));
    [reflexivity | reflexivity | reflexivity | reflexivity
    | repeat constructor; done | reflexivity].
Defined.

Lemma take_in_success_witness :
  ∃ st',
    take_in Scenario.one_job_env "b"
      (Scenario.lane_state (Scenario.running ∅) [[]] [1%nat]) = (inr tt, st')
    ∧ available st' = []
    ∧ statusd st' = [(0, 0); (1, 1)]%nat
    ∧ connected (trace st') = [1%nat].
Proof.
  destruct (take_in_success Scenario.one_job_env "b" 1%nat [] Scenario.m8
              (Scenario.ok_spec 100%nat) [] 100%nat
              (Scenario.lane_state (Scenario.running ∅) [[]] [1%nat]))
    as (st' & Hrun & Hav & Hsd & _ & _ & _ & _ & _ & Htrace);
    [reflexivity | reflexivity | reflexivity | intros; reflexivity |].
  exists st'. split; [exact Hrun|]. rewrite Hav, Hsd, Htrace.
  split_and!; reflexivity.
Defined.

Lemma take_in_no_lane_witness :
  take_in Scenario.one_job_env "b" (Scenario.frame_state ∅)
  = (inl IndexError, Scenario.frame_state ∅).
Proof.
  apply (take_in_no_lane Scenario.one_job_env "b" (Scenario.frame_state ∅)).
  reflexivity.
Defined.

Lemma end_of_stream_finishes_witness :
  ∃ st',
    handle_lane Scenario.one_job_env "jobs" (0%nat, None)
      (Scenario.lane_state (Scenario.running ∅) [[]] [1%nat]) = (inr tt, st')
    ∧ statusd st' = []
    ∧ available st' = [1; 0]%nat
    ∧ heap st' = [status_cleared]
    ∧ finished (trace st') = ["a"].
Proof.
  destruct (end_of_stream_finishes Scenario.one_job_env "jobs" 0%nat 0%nat
              (Scenario.running ∅) ∅ "a" 100%nat (Some "xqual") 0%nat Scenario.m8
              (Scenario.lane_state (Scenario.running ∅) [[]] [1%nat]))
    as (st' & Hrun & Hsd & _ & Hav & Hheap & _ & _ & _ & Htrace);
    [reflexivity | reflexivity | reflexivity | reflexivity | reflexivity
    | reflexivity | reflexivity | reflexivity | reflexivity
    | apply (bool_decide_unpack _); vm_compute; exact I |].
  exists st'. split; [exact Hrun|]. rewrite Hsd, Hav, Hheap, Htrace.
  split_and!; reflexivity.
Defined.

Lemma end_of_stream_chains_witness :
  ∃ st',
    handle_lane Scenario.one_job_env "jobs" (0%nat, None)
      (Scenario.lane_state (Scenario.running ∅) [[Scenario.ok_spec 101%nat]]
         [1%nat]) = (inr tt, st')
    ∧ statusd st' = [(0, 0)]%nat
    ∧ available st' = [1%nat]
    ∧ st_pid <$> heap st' = [Some 101%nat]
    ∧ finished (trace st') = [].
Proof.
  destruct (end_of_stream_chains Scenario.one_job_env "jobs" 0%nat 0%nat
              (Scenario.running ∅) ∅ "a" 100%nat (Some "xqual") 0%nat
              (Scenario.ok_spec 101%nat) [] 101%nat Scenario.m8
              (Scenario.lane_state (Scenario.running ∅)
                 [[Scenario.ok_spec 101%nat]] [1%nat]))
    as (st' & Hrun & Hsd & Hav & Hheap & _ & _ & _ & Htrace);
    [reflexivity | reflexivity | reflexivity | reflexivity | reflexivity
    | reflexivity | reflexivity | reflexivity | reflexivity
    | intros; reflexivity |].
  exists st'. split; [exact Hrun|]. rewrite Hsd, Hav, Hheap, Htrace.
  split_and!; reflexivity.
Defined.

Lemma cleanup_kills_tracked_witness :
  ∃ st',
    cleanup Scenario.one_job_env
      (Scenario.lane_state (Scenario.running ∅) [[]] [1%nat]) = (inr tt, st')
    ∧ trace st' = [EIoaExit; EKillpg 100%nat true; EReap 100%nat].
Proof.
  destruct (cleanup_kills_tracked Scenario.one_job_env 0%nat (Scenario.running ∅)
              100%nat (Scenario.lane_state (Scenario.running ∅) [[]] [1%nat]))
    as (st' & Hrun & Htrace & _); [reflexivity | reflexivity | reflexivity | |].
  - intros lid loc. cbn [Scenario.lane_state statusd dict_get].
    case_decide; [|done]. intros [= <-]. by eexists.
  - exists st'. split; [exact Hrun|]. rewrite Htrace. reflexivity.
Defined.

Lemma no_monitors_never_returns_witness :
  (dispatch Scenario.empty_plan_env "jobs" (Qc_of_Z 8) 4%nat [] Scenario.m8 ["a"]).1
  = Running
  ∧ queue (dispatch Scenario.empty_plan_env "jobs" (Qc_of_Z 8) 4%nat []
             Scenario.m8 ["a"]).2 = ["a"]
  ∧ statusd (dispatch Scenario.empty_plan_env "jobs" (Qc_of_Z 8) 4%nat []
               Scenario.m8 ["a"]).2 = []
  ∧ spawned (trace (dispatch Scenario.empty_plan_env "jobs" (Qc_of_Z 8) 4%nat []
                      Scenario.m8 ["a"]).2) = [].
Proof.
  apply (no_monitors_never_returns Scenario.empty_plan_env "jobs" (Qc_of_Z 8)
           4%nat Scenario.m8 ["a"]).
  intros n. reflexivity.
Defined.

Lemma dispatch_empty_queue_witness :
  ∃ st',
    dispatch Scenario.empty_plan_env "jobs" (Qc_of_Z 8) 3%nat
             [Scenario.m8; Scenario.m8] Scenario.m8 [] = (Returned, st')
    ∧ trace st' = [ETitle Summary "jobs" ["*"]; EIoaEnter; EFlush; EIoaExit]
    ∧ queue st' = []
    ∧ monitors st' = [Scenario.m8; Scenario.m8]
    ∧ clock_reads st' = 1%nat.
Proof.
  apply (dispatch_empty_queue Scenario.empty_plan_env "jobs" (Qc_of_Z 8) 2%nat
           Scenario.m8 [Scenario.m8] Scenario.m8 [] []); reflexivity.
Defined.

Lemma backfill_shares_plan_witness :
  ∃ st',
    backfill [0%nat]
      (Scenario.lane_state (Scenario.running ∅) [[Scenario.ok_spec 101%nat]]
         [1%nat]) = (inr tt, st')
    ∧ available st' = []
    ∧ statusd st' = [(0, 0); (1, 1)]%nat
    ∧ st_process_queue <$> heap st' = [Some 0%nat; Some 0%nat]
    ∧ st_source <$> heap st' = [Some "a"; Some "a"]
    ∧ st_pid <$> heap st' = [Some 100%nat; Some 101%nat].
Proof.
  destruct (backfill_shares_plan 0%nat 1%nat [] 0%nat (Scenario.running ∅) 0%nat
              (Scenario.ok_spec 101%nat) [] 101%nat Scenario.m8
              (Scenario.lane_state (Scenario.running ∅)
                 [[Scenario.ok_spec 101%nat]] [1%nat]))
    as (st' & Hrun & Hav & Hsd & Hheap & _);
    [reflexivity | reflexivity | reflexivity | reflexivity | reflexivity
    | reflexivity | intros; reflexivity |].
  exists st'. split; [exact Hrun|]. rewrite Hav, Hsd, Hheap.
  split_and!; reflexivity.
Defined.

Lemma backfill_exhausted_witness :
  ∃ st' copies,
    backfill [0%nat] (Scenario.lane_state (Scenario.running ∅) [[]] [1%nat])
    = (inr tt, st')
    ∧ heap st' = [Scenario.running ∅] ++ copies
    ∧ length copies = 1%nat
    ∧ status st' = Some 1%nat
    ∧ statusd st' = [(0, 0)]%nat
    ∧ trace st' = [].
Proof.
  destruct (backfill_exhausted [0%nat]
              (Scenario.lane_state (Scenario.running ∅) [[]] [1%nat]))
    as (st' & copies & Hrun & Hheap & Hlen & Hstatus & Hsd & _ & _ & _ & _ & Htrace).
  - done.
  - repeat constructor. exists 0%nat, (Scenario.running ∅), 0%nat.
    split_and!; reflexivity.
  - exists st', copies. split; [exact Hrun|]. rewrite Hheap, Hlen, Hsd, Htrace.
    split_and!; try reflexivity. by apply Hstatus.
Defined.

Lemma kill_lane_no_pid_witness :
  ∃ st', kill_lane Scenario.one_job_env 0%nat Scenario.launch_state = (inr tt, st')
         ∧ trace st' = trace Scenario.launch_state.
Proof.
  apply (kill_lane_no_pid Scenario.one_job_env 0%nat 0%nat
           (MkStatus (Some None) (Some "c") (Some 0%nat) (Some ∅) None)
           Scenario.launch_state); reflexivity.
Defined.

Lemma kill_lane_gone_witness :
  ∃ st', kill_lane Scenario.gone_env 0%nat (Scenario.frame_state ∅) = (inr tt, st')
         ∧ trace st' = trace (Scenario.frame_state ∅) ++ [EKillpg 100%nat false].
Proof.
  apply (kill_lane_gone Scenario.gone_env 0%nat 0%nat (Scenario.running ∅) 100%nat
           (Scenario.frame_state ∅)); reflexivity.
Defined.
